(** * Shopify product scraper: a shallow embedding of
      [scrapers/fetch_shopify_product_data.py] and its properties.

    The Python module builds the [/products.json] endpoint of a store,
    pages through it, flattens product/variant/image records into rows and
    appends the rows to a CSV file.  Python values coming from the remote
    JSON are modelled by the type [json]; exceptions are explicit outcomes;
    the network, the file system and the log are threaded through a state
    monad over [world]. *)

From Stdlib Require Import ZArith Ascii String DecimalString.
From stdpp Require Import gmap strings list.

Local Open Scope string_scope.
Local Open Scope list_scope.
Local Set Warnings "-register-all".

(** ** Python values *)

(** Values produced by [json.loads]: [None], [bool], [int], [str], [list]
    and [dict].  Numbers are integers: the code tests them for truth and
    passes them on, nothing more.  A [dict] keeps its items in insertion
    order and is read with the first binding of a key. *)
Inductive json : Type :=
| JNull
| JBool (b : bool)
| JInt (n : Z)
| JStr (s : string)
| JList (items : list json)
| JDict (items : list (string * json)).

(** A [dict] as the code builds and reads it. *)
Definition dict := list (string * json).

(** ** Exceptions *)

Inductive exn_class : Type :=
| KeyboardInterrupt
| Exception
| OSError
| RequestException
| HTTPError
| Timeout
| ConnectionError
| ValueError
| JSONDecodeError
| RequestsJSONDecodeError
| TypeError
| AttributeError
| KeyError
| IndexError
| UnboundLocalError.

Global Instance exn_class_eq_dec : EqDecision exn_class.
Proof. solve_decision. Defined.

(** The classes [c] is an instance of: [c] itself and its base classes.
    [IOError] is an alias of [OSError]; [requests.exceptions.RequestException]
    derives from it; the [JSONDecodeError] of [requests] derives both from
    [RequestException] and from [json.JSONDecodeError]. *)
Definition bases (c : exn_class) : list exn_class :=
  match c with
  | KeyboardInterrupt => [KeyboardInterrupt]
  | Exception => [Exception]
  | OSError => [OSError; Exception]
  | RequestException => [RequestException; OSError; Exception]
  | HTTPError => [HTTPError; RequestException; OSError; Exception]
  | Timeout => [Timeout; RequestException; OSError; Exception]
  | ConnectionError => [ConnectionError; RequestException; OSError; Exception]
  | ValueError => [ValueError; Exception]
  | JSONDecodeError => [JSONDecodeError; ValueError; Exception]
  | RequestsJSONDecodeError =>
      [RequestsJSONDecodeError; RequestException; OSError;
       JSONDecodeError; ValueError; Exception]
  | TypeError => [TypeError; Exception]
  | AttributeError => [AttributeError; Exception]
  | KeyError => [KeyError; Exception]
  | IndexError => [IndexError; Exception]
  | UnboundLocalError => [UnboundLocalError; Exception]
  end.

Record exn : Type := mk_exn { exn_cls : exn_class; exn_msg : string }.

(** [isinstance(e, c)], the test an [except c] clause performs. *)
Definition isinstance (e : exn) (c : exn_class) : bool :=
  bool_decide (c ∈ bases (exn_cls e)).

Abbreviation IOError := OSError (only parsing).

(** ** Outcomes of a computation *)

(** A call returns a value, raises, or is [Blocked]: the scripted network
    of the model holds no further response to hand out. *)
Inductive outcome (A : Type) : Type :=
| Return (a : A)
| Raise (e : exn)
| Blocked.
Arguments Return {A} a.
Arguments Raise {A} e.
Arguments Blocked {A}.

Definition obind {A B} (x : outcome A) (f : A -> outcome B) : outcome B :=
  match x with
  | Return a => f a
  | Raise e => Raise e
  | Blocked => Blocked
  end.

Declare Scope py_scope.
Delimit Scope py_scope with py.
Notation "'do' x <~ c ; k" := (obind c (fun x => k))
  (at level 10, x name, c at level 100, k at level 200) : py_scope.
Notation "'do' ' p <~ c ; k" :=
  (obind c (fun x => match x with p => k end))
  (at level 10, p pattern, c at level 100, k at level 200) : py_scope.
Local Open Scope py_scope.

Definition raise {A} (c : exn_class) (m : string) : outcome A :=
  Raise (mk_exn c m).

(** ** Python operations on values *)

(** Truth value of an object, as tested by [if x], [not x], [x or y]. *)
Definition truthy (v : json) : bool :=
  match v with
  | JNull => false
  | JBool b => b
  | JInt n => negb (n =? 0)%Z
  | JStr s => negb (String.eqb s "")
  | JList l => match l with [] => false | _ => true end
  | JDict d => match d with [] => false | _ => true end
  end.

(** [d.get(key, default)] on a [dict]. *)
Fixpoint dict_get (d : dict) (key : string) (default : json) : json :=
  match d with
  | [] => default
  | (k, v) :: d' => if String.eqb k key then v else dict_get d' key default
  end.

(** [key in d] on a [dict]. *)
Definition dict_has (d : dict) (key : string) : bool :=
  existsb (fun kv => String.eqb (fst kv) key) d.

(** [x.get(key, default)] on an arbitrary value: only a [dict] has the
    method. *)
Definition get (x : json) (key : string) (default : json) : outcome json :=
  match x with
  | JDict d => Return (dict_get d key default)
  | _ => raise AttributeError "object has no attribute 'get'"
  end.

Fixpoint chars (s : string) : list json :=
  match s with
  | EmptyString => []
  | String c s' => JStr (String c EmptyString) :: chars s'
  end.

(** Iterating over a value ([for x in v], [list.extend(v)], [str.join(v)]):
    a list gives its items, a string its characters, a dict its keys. *)
Definition iterate (v : json) : outcome (list json) :=
  match v with
  | JList l => Return l
  | JStr s => Return (chars s)
  | JDict d => Return (map (fun kv => JStr (fst kv)) d)
  | _ => raise TypeError "object is not iterable"
  end.

(** [len(v)]. *)
Definition len (v : json) : outcome nat :=
  match v with
  | JList l => Return (length l)
  | JStr s => Return (String.length s)
  | JDict d => Return (length d)
  | _ => raise TypeError "object has no len()"
  end.

(** [v[0]]. *)
Definition first_item (v : json) : outcome json :=
  match v with
  | JList [] => raise IndexError "list index out of range"
  | JList (x :: _) => Return x
  | JStr EmptyString => raise IndexError "string index out of range"
  | JStr (String c _) => Return (JStr (String c EmptyString))
  | JDict _ => raise KeyError "0"
  | _ => raise TypeError "object is not subscriptable"
  end.

(** [sep.join(items)] for a list of values: every item must be a [str]. *)
Fixpoint join (sep : string) (items : list json) : outcome string :=
  match items with
  | [] => Return ""
  | JStr s :: rest =>
      match rest with
      | [] => Return s
      | _ => do t <~ join sep rest; Return (s +:+ sep +:+ t)
      end
  | _ :: _ => raise TypeError "sequence item: expected str instance"
  end.

(** [str(n)] for a natural number. *)
Definition str_of_nat (n : nat) : string :=
  NilZero.string_of_uint (Nat.to_uint n).

(** ** Strings *)

Definition is_char (c : ascii) : ascii -> bool := Ascii.eqb c.

(** [c in s]. *)
Fixpoint str_in (c : ascii) (s : string) : bool :=
  match s with
  | EmptyString => false
  | String a s' => Ascii.eqb a c || str_in c s'
  end.

(** The part of [s] before the first character satisfying [p], and the
    part from that character on (empty when there is none). *)
Fixpoint break_at (p : ascii -> bool) (s : string) : string * string :=
  match s with
  | EmptyString => (EmptyString, EmptyString)
  | String a s' =>
      if p a then (EmptyString, s)
      else let '(l, r) := break_at p s' in (String a l, r)
  end.

(** [s.split(c, 1)] when [c in s]: the text before the first [c] and the
    text after it. *)
Definition split1 (c : ascii) (s : string) : string * string :=
  let '(l, r) := break_at (is_char c) s in
  match r with
  | EmptyString => (l, EmptyString)
  | String _ r' => (l, r')
  end.

(** The part of [s] up to and including the last [c], and what follows it;
    the first part is empty when [c] does not occur. *)
Fixpoint rbreak (c : ascii) (s : string) : string * string :=
  match s with
  | EmptyString => (EmptyString, EmptyString)
  | String a s' =>
      let '(l, r) := rbreak c s' in
      if str_in c s' then (String a l, r)
      else if Ascii.eqb a c then (String a EmptyString, s')
      else (EmptyString, s)
  end.

Fixpoint str_filter (p : ascii -> bool) (s : string) : string :=
  match s with
  | EmptyString => EmptyString
  | String a s' => if p a then String a (str_filter p s') else str_filter p s'
  end.

Fixpoint str_forall (p : ascii -> bool) (s : string) : bool :=
  match s with
  | EmptyString => true
  | String a s' => p a && str_forall p s'
  end.

Fixpoint lstrip (p : ascii -> bool) (s : string) : string :=
  match s with
  | EmptyString => EmptyString
  | String a s' => if p a then lstrip p s' else s
  end.

Definition code (c : ascii) : nat := nat_of_ascii c.

Definition is_ascii_char (c : ascii) : bool := (code c <? 128)%nat.
Definition is_upper (c : ascii) : bool :=
  ((65 <=? code c) && (code c <=? 90))%nat.
Definition is_lower (c : ascii) : bool :=
  ((97 <=? code c) && (code c <=? 122))%nat.
Definition is_digit (c : ascii) : bool :=
  ((48 <=? code c) && (code c <=? 57))%nat.
Definition is_alpha (c : ascii) : bool := is_upper c || is_lower c.

(** [s.isascii()]. *)
Definition isascii (s : string) : bool := str_forall is_ascii_char s.

Definition lower_char (c : ascii) : ascii :=
  if is_upper c then ascii_of_nat (code c + 32) else c.

(** [s.lower()] on ASCII text. *)
Fixpoint lower (s : string) : string :=
  match s with
  | EmptyString => EmptyString
  | String a s' => String (lower_char a) (lower s')
  end.

(** [s[:2] == '//']. *)
Definition starts_with_slashes (s : string) : bool :=
  match s with
  | String a (String b _) => Ascii.eqb a "/" && Ascii.eqb b "/"
  | _ => false
  end.

(** [pat in s] for strings: [pat] occurs in [s]. *)
Fixpoint str_contains (pat s : string) : bool :=
  String.prefix pat s ||
  match s with
  | EmptyString => false
  | String _ s' => str_contains pat s'
  end.

(** [key in x] for a string [key]: a key of a dict, an item of a list, a
    substring of a string. *)
Definition contains (x : json) (key : string) : outcome bool :=
  match x with
  | JDict d => Return (dict_has d key)
  | JList l =>
      Return (existsb (fun v => match v with
                                | JStr s => String.eqb s key
                                | _ => false
                                end) l)
  | JStr s => Return (str_contains key s)
  | _ => raise TypeError "argument is not iterable"
  end.

(** [x[key]] for a string [key]. *)
Definition subscript (x : json) (key : string) : outcome json :=
  match x with
  | JDict d =>
      if dict_has d key then Return (dict_get d key JNull)
      else raise KeyError key
  | _ => raise TypeError "indices must be integers"
  end.

(** ** The world: network, file system, log *)

Inductive level : Type := INFO | WARNING | ERROR.

Global Instance level_eq_dec : EqDecision level.
Proof. solve_decision. Defined.

Record log_record : Type := { levelname : level; message : string }.

(** What [requests.get] hands back: a status code, the body text and what
    [response.json()] does with it. *)
Record Response : Type := {
  status_code : nat;
  text : string;
  json_body : exn + json
}.

(** One call of [requests.get]: it raises or returns a response. *)
Inductive get_outcome : Type :=
| GetRaises (e : exn)
| GetReturns (r : Response).

(** A line of the CSV file, by the writer call that produced it:
    [writeheader] writes the field names, [writerows] one line of cells per
    row.  Every line ends with a line terminator, so a file has size zero
    exactly when it holds no line. *)
Inductive line : Type :=
| Header (fieldnames : list string)
| Row (cells : list json).

(** How the file operations of one [save_to_csv] call fail, if they do:
    [open] raises, or the writer raises after [written] lines reached the
    file (the size query, a write, or the final flush on close). *)
Inductive io_fault : Type :=
| OpenFails (e : exn)
| WriteFails (written : nat) (e : exn).

(** [network]: the outcomes of the [requests.get] calls still to come, in
    order.  [faults]: the file faults of the [save_to_csv] calls still to
    come ([None]: the call meets no fault); calls beyond the list meet none.
    [disk]: the regular files by name.  [requested]: the URLs requested so
    far and [log] the records logged so far, oldest first.  The pacing
    ([time.sleep]) is not part of the model. *)
Record world : Type := {
  network : list get_outcome;
  faults : list (option io_fault);
  disk : gmap string (list line);
  requested : list string;
  log : list log_record
}.

(** Stateful computations over a state [S]; the state survives a raise. *)
Definition State (S A : Type) : Type := S -> outcome A * S.

(** Computations over the world, and over the local variables [L] of a
    function together with the world. *)
Abbreviation M := (State world).
Abbreviation Local L := (State (L * world)).

Definition ret {S A} (a : A) : State S A := fun s => (Return a, s).

Definition bind {S A B} (m : State S A) (f : A -> State S B) : State S B :=
  fun s =>
    match m s with
    | (Return a, s') => f a s'
    | (Raise e, s') => (Raise e, s')
    | (Blocked, s') => (Blocked, s')
    end.

Notation "'run' x <- c ; k" := (bind c (fun x => k))
  (at level 10, x name, c at level 100, k at level 200) : py_scope.
Notation "c ;; k" := (bind c (fun _ => k))
  (at level 100, k at level 200, right associativity) : py_scope.

(** A pure outcome as a computation that leaves the state alone. *)
Definition lift {S A} (x : outcome A) : State S A := fun s => (x, s).

(** A computation over the world, run from inside a function body. *)
Definition in_world {L A} (m : M A) : Local L A :=
  fun s => let '(r, w') := m (snd s) in (r, (fst s, w')).

(** Reading and updating the local variables. *)
Definition locals {L} : Local L L := fun s => (Return (fst s), s).
Definition assign {L} (f : L -> L) : Local L unit :=
  fun s => (Return tt, (f (fst s), snd s)).

(** A function body run on fresh local variables [l]. *)
Definition call {L A} (l : L) (body : Local L A) : M A :=
  fun w => let '(r, s') := body (l, w) in (r, snd s').

(** [try: body  except ...: handler]: [handler e] is [None] when no clause
    matches [e], which then propagates. *)
Definition try_except {S A} (body : State S A)
    (handler : exn -> option (State S A)) : State S A :=
  fun s =>
    match body s with
    | (Raise e, s') =>
        match handler e with
        | Some h => h s'
        | None => (Raise e, s')
        end
    | r => r
    end.

Definition logging (l : level) (msg : string) : M unit :=
  fun w => (Return tt,
            {| network := network w; faults := faults w; disk := disk w;
               requested := requested w;
               log := log w ++ [{| levelname := l; message := msg |}] |}).

(** [requests.get(url, ...)]: takes the next outcome of the network. *)
Definition requests_get (url : string) : M Response :=
  fun w =>
    match network w with
    | [] => (Blocked, w)
    | o :: rest =>
        let w' := {| network := rest; faults := faults w; disk := disk w;
                     requested := requested w ++ [url]; log := log w |} in
        match o with
        | GetRaises e => (Raise e, w')
        | GetReturns r => (Return r, w')
        end
    end.

(** [response.raise_for_status()]: [HTTPError] for a 4xx or 5xx status. *)
Definition raise_for_status (r : Response) : outcome unit :=
  if ((400 <=? status_code r) && (status_code r <? 600))%nat
  then raise HTTPError (str_of_nat (status_code r) +:+ " Error")
  else Return tt.

(** [response.json()]. *)
Definition response_json (r : Response) : outcome json :=
  match json_body r with
  | inl e => Raise e
  | inr data => Return data
  end.

(** ** [urllib.parse] *)

(** The part of Python's standard library that [construct_url] calls.  It
    is not code of this repository; [urlsplit], [urlparse] and [urlunparse]
    follow CPython 3.12.  Two routines they call are taken as given:
    [normalize_NFKC s] is [unicodedata.normalize('NFKC', s)], and
    [bracketed_host_error h] is the message of the [ValueError] that
    [_check_bracketed_host h] raises ([None] when it accepts [h]). *)
Record stdlib : Type := {
  normalize_NFKC : string -> string;
  bracketed_host_error : string -> option string
}.

Record SplitResult : Type := {
  sr_scheme : string;
  sr_netloc : string;
  sr_path : string;
  sr_query : string;
  sr_fragment : string
}.

Record ParseResult : Type := {
  scheme : string;
  netloc : string;
  path : string;
  params : string;
  query : string;
  fragment : string
}.

Definition str_truthy (s : string) : bool := negb (String.eqb s "").

Definition C0_control_or_space (c : ascii) : bool := (code c <=? 32)%nat.

Definition unsafe_url_byte (c : ascii) : bool :=
  (code c =? 9)%nat || (code c =? 13)%nat || (code c =? 10)%nat.

Definition scheme_char (c : ascii) : bool :=
  is_alpha c || is_digit c || str_in c "+-.".

Definition uses_params : list string :=
  [""; "ftp"; "hdl"; "prospero"; "http"; "imap"; "https"; "shttp"; "rtsp";
   "rtspu"; "sip"; "sips"; "mms"; "sftp"; "tel"].

Definition uses_netloc : list string :=
  [""; "ftp"; "http"; "gopher"; "nntp"; "telnet"; "imap"; "wais"; "file";
   "mms"; "https"; "shttp"; "snews"; "prospero"; "rtsp"; "rtspu"; "rsync";
   "svn"; "svn+ssh"; "sftp"; "nfs"; "git"; "git+ssh"; "ws"; "wss";
   "itms-services"].

Definition str_mem (s : string) (l : list string) : bool :=
  existsb (String.eqb s) l.

(** The scheme of [url] and what follows its colon: a scheme is a run of
    scheme characters that starts with an ASCII letter and ends at the
    first colon. *)
Definition split_scheme (url : string) : string * string :=
  let '(l, r) := break_at (is_char ":") url in
  match url, r with
  | String a _, String _ rest =>
      if str_truthy l && is_ascii_char a && is_alpha a
         && str_forall scheme_char l
      then (lower l, rest)
      else ("", url)
  | _, _ => ("", url)
  end.

(** [_splitnetloc(url, 2)]: the text between the leading [//] and the first
    of [/], [?], [#], and the text from there on. *)
Definition splitnetloc (url : string) : string * string :=
  match url with
  | String _ (String _ u) => break_at (fun c => str_in c "/?#") u
  | _ => ("", "")
  end.

(** [netloc.partition('[')[2].partition(']')[0]]. *)
Definition bracketed_host (netloc : string) : string :=
  fst (break_at (is_char "]") (snd (split1 "[" netloc))).

Section Urllib.
Variable lib : stdlib.

Definition checknetloc (netloc : string) : outcome unit :=
  if negb (str_truthy netloc) || isascii netloc then Return tt
  else
    let n := str_filter (fun c => negb (str_in c "@:#?")) netloc in
    let netloc2 := normalize_NFKC lib n in
    if String.eqb n netloc2 then Return tt
    else if existsb (fun c => str_in c netloc2) (list_ascii_of_string "/?#@:")
    then raise ValueError ("netloc '" +:+ netloc +:+
                "' contains invalid characters under NFKC normalization")
    else Return tt.

Definition check_netloc_brackets (netloc : string) : outcome unit :=
  let has_open := str_in "[" netloc in
  let has_close := str_in "]" netloc in
  if (has_open && negb has_close) || (has_close && negb has_open)
  then raise ValueError "Invalid IPv6 URL"
  else if has_open && has_close then
    match bracketed_host_error lib (bracketed_host netloc) with
    | Some m => raise ValueError m
    | None => Return tt
    end
  else Return tt.

Definition urlsplit (url : string) : outcome SplitResult :=
  let url := lstrip C0_control_or_space url in
  let url := str_filter (fun c => negb (unsafe_url_byte c)) url in
  let '(scheme, url) := split_scheme url in
  do '(netloc, url) <~
    (if starts_with_slashes url then
       let '(netloc, url) := splitnetloc url in
       do _ <~ check_netloc_brackets netloc;
       Return (netloc, url)
     else Return ("", url));
  let '(url, fragment) :=
    if str_in "#" url then split1 "#" url else (url, "") in
  let '(url, query) :=
    if str_in "?" url then split1 "?" url else (url, "") in
  do _ <~ checknetloc netloc;
  Return {| sr_scheme := scheme; sr_netloc := netloc; sr_path := url;
            sr_query := query; sr_fragment := fragment |}.

Definition splitparams (url : string) : string * string :=
  if str_in "/" url then
    let '(head, tail) := rbreak "/" url in
    if str_in ";" tail then
      let '(a, b) := split1 ";" tail in (head +:+ a, b)
    else (url, "")
  else split1 ";" url.

Definition urlparse (url : string) : outcome ParseResult :=
  do s <~ urlsplit url;
  let '(url, params) :=
    if str_mem (sr_scheme s) uses_params && str_in ";" (sr_path s)
    then splitparams (sr_path s)
    else (sr_path s, "") in
  Return {| scheme := sr_scheme s; netloc := sr_netloc s; path := url;
            params := params; query := sr_query s;
            fragment := sr_fragment s |}.

End Urllib.

Definition urlunsplit (scheme netloc url query fragment : string) : string :=
  let url :=
    if str_truthy netloc ||
       (str_truthy scheme && str_mem scheme uses_netloc
        && negb (starts_with_slashes url))
    then
      let url :=
        match url with
        | String c _ => if Ascii.eqb c "/" then url else "/" +:+ url
        | EmptyString => url
        end in
      "//" +:+ netloc +:+ url
    else url in
  let url := if str_truthy scheme then scheme +:+ ":" +:+ url else url in
  let url := if str_truthy query then url +:+ "?" +:+ query else url in
  if str_truthy fragment then url +:+ "#" +:+ fragment else url.

Definition urlunparse (scheme netloc url params query fragment : string)
  : string :=
  let url := if str_truthy params then url +:+ ";" +:+ params else url in
  urlunsplit scheme netloc url query fragment.

(** ** The scraper *)

Definition CSV_FILENAME : string := "products_data.csv".

Definition CSV_HEADERS : list string :=
  [ "store_domain";
    "product_id";
    "title";
    "handle";
    "vendor";
    "product_type";
    "created_at";
    "updated_at";
    "published_at";
    "tags";
    "body_html";
    "variant_id";
    "variant_title";
    "sku";
    "price";
    "compare_at_price";
    "available";
    "variant_created_at";
    "variant_updated_at";
    "image_src";
    "all_image_srcs" ].

Section Scraper.
Variable lib : stdlib.

(** [construct_url(domain)]; Python's [None] result is [None]. *)
Definition construct_url (domain : string) : M (option string) :=
  run parsed <- lift (urlparse lib ("//" +:+ domain));
  let scheme :=
    if negb (str_truthy (scheme parsed)) then "https"
    else scheme parsed in
  let netloc :=
    if str_truthy (netloc parsed) then netloc parsed else path parsed in
  if negb (str_truthy netloc) then
    logging ERROR ("Could not parse domain: " +:+ domain);;
    ret None
  else
    let url := urlunparse scheme netloc "/products.json" "" "" "" in
    ret (Some url).

(** Local variables of [fetch_products]; [response] is unbound until
    [requests.get] first returns. *)
Record fetch_locals : Type := {
  products : list json;
  page : nat;
  response : option Response
}.

Definition set_response (r : Response) (l : fetch_locals) : fetch_locals :=
  {| products := products l; page := page l; response := Some r |}.
Definition extend_products (items : list json) (l : fetch_locals)
  : fetch_locals :=
  {| products := products l ++ items; page := page l;
     response := response l |}.
Definition next_page (l : fetch_locals) : fetch_locals :=
  {| products := products l; page := page l + 1; response := response l |}.

(** How an iteration of [while True] ends. *)
Inductive loop_exit : Type := Break | Continue.

(** One iteration of the loop of [fetch_products]. *)
Definition fetch_page (url : string) (limit : nat)
  : Local fetch_locals loop_exit :=
  run l <- locals;
  let paginated_url :=
    url +:+ "?limit=" +:+ str_of_nat limit
        +:+ "&page=" +:+ str_of_nat (page l) in
  in_world (logging INFO ("Fetching: " +:+ paginated_url));;
  try_except
    (run r <- in_world (requests_get paginated_url);
     assign (set_response r);;
     lift (raise_for_status r);;
     run data <- lift (response_json r);
     run has_products <-
       lift (do present <~ contains data "products";
             if present
             then do v <~ subscript data "products"; Return (truthy v)
             else Return false);
     if has_products then
       run v <- lift (subscript data "products");
       run items <- lift (iterate v);
       assign (extend_products items);;
       run n <- lift (len v);
       run l' <- locals;
       in_world (logging INFO
         ("Fetched " +:+ str_of_nat n +:+ " products from page "
          +:+ str_of_nat (page l') +:+ ". Total so far: "
          +:+ str_of_nat (length (products l'))));;
       if (n <? limit)%nat then ret Break
       else assign next_page;; ret Continue
     else
       in_world (logging INFO
         ("No more products found on page " +:+ str_of_nat (page l)
          +:+ " or invalid JSON structure for " +:+ url +:+ "."));;
       ret Break)
    (fun e =>
       if isinstance e RequestException then Some (
         in_world (logging ERROR
           ("Error fetching " +:+ paginated_url +:+ ": " +:+ exn_msg e));;
         ret Break)
       else if isinstance e JSONDecodeError then Some (
         in_world (logging ERROR
           ("Error decoding JSON from " +:+ paginated_url +:+ ": "
            +:+ exn_msg e));;
         run l' <- locals;
         match response l' with
         | None =>
             lift (raise UnboundLocalError
               "cannot access local variable 'response'")
         | Some r =>
             in_world (logging ERROR
               ("Response text: " +:+ substring 0 500 (text r) +:+ "..."));;
             ret Break
         end)
       else if isinstance e Exception then Some (
         in_world (logging ERROR
           ("An unexpected error occurred for " +:+ paginated_url +:+ ": "
            +:+ exn_msg e));;
         ret Break)
       else None).

(** The loop [while True]: [fuel] bounds the iterations of the model. *)
Fixpoint fetch_loop (fuel : nat) (url : string) (limit : nat)
  : Local fetch_locals unit :=
  match fuel with
  | O => lift Blocked
  | S fuel' =>
      run c <- fetch_page url limit;
      match c with
      | Break => ret tt
      | Continue => fetch_loop fuel' url limit
      end
  end.

(** [fetch_products(url)].  Every iteration that does not end the loop
    takes one outcome from the network, so one more iteration than the
    network holds outcomes is all the loop can make. *)
Definition fetch_products (url : string) : M (list json) :=
  fun w =>
    call {| products := []; page := 1; response := None |}
      (let limit := 250 in
       fetch_loop (S (length (network w))) url limit;;
       run l <- locals;
       ret (products l)) w.

(** A dict display [{k1: e1, k2: e2, ...}]: the values are evaluated in
    order, and the first one that raises ends the evaluation. *)
Fixpoint dict_display (entries : list (string * outcome json))
  : outcome dict :=
  match entries with
  | [] => Return []
  | (k, e) :: rest =>
      do v <~ e;
      do d <~ dict_display rest;
      Return ((k, v) :: d)
  end.

(** [[f(x) for x in xs]] for an [f] that may raise. *)
Fixpoint for_each {A B} (f : A -> outcome B) (xs : list A)
  : outcome (list B) :=
  match xs with
  | [] => Return []
  | x :: xs' =>
      do y <~ f x;
      do ys <~ for_each f xs';
      Return (y :: ys)
  end.

(** [[img.get('src', '') for img in imgs if img.get('src')]]. *)
Fixpoint image_srcs (imgs : list json) : outcome (list json) :=
  match imgs with
  | [] => Return []
  | img :: imgs' =>
      do c <~ get img "src" JNull;
      if truthy c then
        do src <~ get img "src" (JStr "");
        do srcs <~ image_srcs imgs';
        Return (src :: srcs)
      else image_srcs imgs'
  end.

(** [', '.join(product.get('tags', []))]. *)
Definition joined_tags (product : json) : outcome json :=
  do tags <~ get product "tags" (JList []);
  do items <~ iterate tags;
  do s <~ join ", " items;
  Return (JStr s).

(** The body of the loop over the products in [flatten_data]: the rows it
    appends to [flattened_rows] for one product. *)
Definition flatten_product (product : json) (store_domain : string)
  : outcome (list dict) :=
  do product_id <~ get product "id" JNull;
  do first_image_src <~
    (do images <~ get product "images" JNull;
     if truthy images then
       do images <~ get product "images" (JList [JDict []]);
       do first <~ first_item images;
       get first "src" JNull
     else Return JNull);
  do all_image_srcs <~
    (do images <~ get product "images" (JList []);
     do imgs <~ iterate images;
     do srcs <~ image_srcs imgs;
     join "|" srcs);
  do variants <~ get product "variants" JNull;
  if negb (truthy variants) then
    do row <~ dict_display
      [ ("store_domain", Return (JStr store_domain));
        ("product_id", Return product_id);
        ("title", get product "title" JNull);
        ("handle", get product "handle" JNull);
        ("vendor", get product "vendor" JNull);
        ("product_type", get product "product_type" JNull);
        ("created_at", get product "created_at" JNull);
        ("updated_at", get product "updated_at" JNull);
        ("published_at", get product "published_at" JNull);
        ("tags", joined_tags product);
        ("body_html", get product "body_html" JNull);
        ("variant_id", Return JNull);
        ("variant_title", Return JNull);
        ("sku", Return JNull);
        ("price", Return JNull);
        ("compare_at_price", Return JNull);
        ("available", Return JNull);
        ("variant_created_at", Return JNull);
        ("variant_updated_at", Return JNull);
        ("image_src", Return first_image_src);
        ("all_image_srcs", Return (JStr all_image_srcs)) ];
    Return [row]
  else
    do variants <~ get product "variants" (JList []);
    do vs <~ iterate variants;
    for_each (fun variant =>
      dict_display
        [ ("store_domain", Return (JStr store_domain));
          ("product_id", Return product_id);
          ("title", get product "title" JNull);
          ("handle", get product "handle" JNull);
          ("vendor", get product "vendor" JNull);
          ("product_type", get product "product_type" JNull);
          ("created_at", get product "created_at" JNull);
          ("updated_at", get product "updated_at" JNull);
          ("published_at", get product "published_at" JNull);
          ("tags", joined_tags product);
          ("body_html", get product "body_html" JNull);
          ("variant_id", get variant "id" JNull);
          ("variant_title", get variant "title" JNull);
          ("sku", get variant "sku" JNull);
          ("price", get variant "price" JNull);
          ("compare_at_price", get variant "compare_at_price" JNull);
          ("available", get variant "available" JNull);
          ("variant_created_at", get variant "created_at" JNull);
          ("variant_updated_at", get variant "updated_at" JNull);
          ("image_src", Return first_image_src);
          ("all_image_srcs", Return (JStr all_image_srcs)) ]) vs.

(** [flatten_data(all_products_data, store_domain)]. *)
Fixpoint flatten_data (all_products_data : list json)
    (store_domain : string) : outcome (list dict) :=
  match all_products_data with
  | [] => Return []
  | product :: rest =>
      do rows <~ flatten_product product store_domain;
      do flattened_rows <~ flatten_data rest store_domain;
      Return (rows ++ flattened_rows)
  end.

(** *** The CSV sink *)

Definition set_disk (d : gmap string (list line)) (w : world) : world :=
  {| network := network w; faults := faults w; disk := d;
     requested := requested w; log := log w |}.

(** [os.path.isfile(name)], and [os.path.exists(name)] on a disk that
    holds regular files only. *)
Definition os_path_isfile (name : string) : M bool :=
  fun w => (Return (bool_decide (is_Some (disk w !! name))), w).

(** [os.path.getsize(name)], counted in lines: the code compares it with
    zero only. *)
Definition os_path_getsize (name : string) : M nat :=
  fun w =>
    match disk w !! name with
    | Some content => (Return (length content), w)
    | None => (raise OSError "No such file or directory", w)
    end.

(** The fault of the [save_to_csv] call that starts. *)
Definition next_fault : M (option io_fault) :=
  fun w =>
    match faults w with
    | [] => (Return None, w)
    | f :: rest =>
        (Return f,
         {| network := network w; faults := rest; disk := disk w;
            requested := requested w; log := log w |})
    end.

(** [open(name, 'a', ...)]: creates the file when it is missing. *)
Definition open_append (name : string) : Local (option io_fault) unit :=
  run fault <- locals;
  match fault with
  | Some (OpenFails e) => lift (Raise e)
  | _ =>
      in_world (fun w =>
        match disk w !! name with
        | Some _ => (Return tt, w)
        | None => (Return tt, set_disk (<[name := []]> (disk w)) w)
        end)
  end.

(** One line written to the open file. *)
Definition write_line (name : string) (ln : line)
  : Local (option io_fault) unit :=
  run fault <- locals;
  match fault with
  | Some (WriteFails O e) => lift (Raise e)
  | _ =>
      assign (fun f => match f with
                       | Some (WriteFails (S n) e) => Some (WriteFails n e)
                       | _ => f
                       end);;
      in_world (fun w =>
        (Return tt,
         set_disk (<[name := default [] (disk w !! name) ++ [ln]]> (disk w))
                  w))
  end.

(** Any other operation on the open file: the size query, the close. *)
Definition file_op : Local (option io_fault) unit :=
  run fault <- locals;
  match fault with
  | Some (WriteFails O e) => lift (Raise e)
  | _ => ret tt
  end.

(** [DictWriter._dict_to_list(rowdict)], with the defaults
    [restval=''] and [extrasaction='raise']. *)
Definition dict_to_list (fieldnames : list string) (rowdict : dict)
  : outcome (list json) :=
  let wrong_fields :=
    List.filter (fun kv => negb (str_mem (fst kv) fieldnames)) rowdict in
  match wrong_fields with
  | _ :: _ => raise ValueError "dict contains fields not in fieldnames"
  | [] => Return (map (fun key => dict_get rowdict key (JStr "")) fieldnames)
  end.

(** [writer.writeheader()]. *)
Definition writeheader (name : string) (fieldnames : list string)
  : Local (option io_fault) unit :=
  write_line name (Header fieldnames).

(** [writer.writerows(data)]: each row is converted, then written. *)
Fixpoint writerows (name : string) (fieldnames : list string)
    (data : list dict) : Local (option io_fault) unit :=
  match data with
  | [] => ret tt
  | rowdict :: rest =>
      run cells <- lift (dict_to_list fieldnames rowdict);
      write_line name (Row cells);;
      writerows name fieldnames rest
  end.

(** The [try] block of [save_to_csv]. *)
Definition save_to_csv_try (file_exists : bool) (data : list dict)
    (filename : string) (headers : list string)
  : Local (option io_fault) unit :=
  open_append filename;;
  file_op;;
  run size <- in_world (os_path_getsize filename);
  (if negb file_exists || (size =? 0)%nat
   then writeheader filename headers
   else ret tt);;
  writerows filename headers data;;
  file_op;;
  in_world (logging INFO
    ("Successfully appended " +:+ str_of_nat (length data)
     +:+ " rows to " +:+ filename)).

(** The body of [save_to_csv(data, filename, headers)], run under the
    fault that its file operations meet. *)
Definition save_to_csv_under (fault : option io_fault) (data : list dict)
    (filename : string) (headers : list string) : M unit :=
  call fault
    (run file_exists <- in_world (os_path_isfile filename);
     try_except
       (save_to_csv_try file_exists data filename headers)
       (fun e =>
          if isinstance e IOError then Some (
            in_world (logging ERROR
              ("Error writing to CSV file " +:+ filename +:+ ": "
               +:+ exn_msg e)))
          else if isinstance e Exception then Some (
            in_world (logging ERROR
              ("An unexpected error occurred during CSV writing: "
               +:+ exn_msg e)))
          else None)).

(** [save_to_csv(data, filename, headers)]: the call meets the next fault
    of the world. *)
Definition save_to_csv (data : list dict) (filename : string)
    (headers : list string) : M unit :=
  run fault <- next_fault;
  save_to_csv_under fault data filename headers.

(** *** The main program *)

(** The body of the loop over [STORE_DOMAINS]. *)
Definition process_domain (domain : string) : M unit :=
  logging INFO ("--- Processing domain: " +:+ domain +:+ " ---");;
  run url <- construct_url domain;
  match url with
  | None => ret tt
  | Some url =>
      if negb (str_truthy url) then ret tt
      else
        run products_data <- fetch_products url;
        match products_data with
        | _ :: _ =>
            logging INFO
              ("Fetched a total of " +:+ str_of_nat (length products_data)
               +:+ " product entries for " +:+ domain +:+ ".");;
            run flattened <- lift (flatten_data products_data domain);
            match flattened with
            | _ :: _ => save_to_csv flattened CSV_FILENAME CSV_HEADERS
            | [] => logging WARNING ("No data flattened for " +:+ domain +:+ ".")
            end
        | [] =>
            logging WARNING ("No products retrieved for " +:+ domain +:+ ".")
        end
  end.

Fixpoint for_domains (domains : list string) : M unit :=
  match domains with
  | [] => ret tt
  | domain :: rest => process_domain domain;; for_domains rest
  end.

(** The program run as a script, for the configured [STORE_DOMAINS]. *)
Definition main (STORE_DOMAINS : list string) : M unit :=
  run exists_ <- os_path_isfile CSV_FILENAME;
  (if exists_
   then logging WARNING
          (CSV_FILENAME +:+ " exists. Appending data. "
           +:+ "Delete the file manually for a fresh start.")
   else ret tt);;
  for_domains STORE_DOMAINS;;
  logging INFO "--- Data fetching complete. ---".

End Scraper.

(** * Vocabulary of the properties *)

(** ** The URL builder *)

(** What [construct_url] returns, whatever the world it runs in. *)
Definition url_of (lib : stdlib) (domain : string) (w : world) : outcome (option string) :=
  fst (construct_url lib domain w).

(** The text of the domain once the parser has dropped tabs and line
    breaks, and its split at the first of [/], [?], [#]. *)
Definition cleaned (domain : string) : string :=
  str_filter (fun c => negb (unsafe_url_byte c)) domain.
Definition host_part (domain : string) : string :=
  fst (break_at (fun c => str_in c "/?#") (cleaned domain)).
Definition rest_part (domain : string) : string :=
  snd (break_at (fun c => str_in c "/?#") (cleaned domain)).

(** Domains on which the parser cannot raise: ASCII text without square
    brackets. *)
Definition domain_safe (domain : string) : bool :=
  str_forall (fun c => is_ascii_char c && negb (str_in c "[]")) domain.

(** Two worlds that differ in their log at most. *)
Definition same_but_log (w w' : world) : Prop :=
  network w' = network w /\ faults w' = faults w /\
  disk w' = disk w /\ requested w' = requested w.

(** The URL the builder assembles around a network location. *)
Definition endpoint (host : string) : string :=
  "https://" +:+ host +:+ "/products.json".

(** Characters of a bare host name: ASCII, and none of the characters the
    parser treats specially. *)
Definition host_char (c : ascii) : bool :=
  is_ascii_char c && negb (str_in c "[]/?#") && negb (unsafe_url_byte c).

(** ** The flattener *)

(** The first binding of a key in a dict, if there is one. *)
Fixpoint dict_lookup (d : dict) (key : string) : option json :=
  match d with
  | [] => None
  | (k, v) :: d' => if String.eqb k key then Some v else dict_lookup d' key
  end.

Definition is_str (v : json) : bool :=
  match v with JStr _ => true | _ => false end.
Definition is_dict (v : json) : bool :=
  match v with JDict _ => true | _ => false end.
Definition str_value (v : json) : string :=
  match v with JStr s => s | _ => "" end.
Definition as_dict (v : json) : dict :=
  match v with JDict d => d | _ => [] end.

(** The list a product holds under a key; empty when the key is absent. *)
Definition items_of (key : string) (product : json) : list json :=
  match dict_lookup (as_dict product) key with
  | Some (JList l) => l
  | _ => []
  end.
Definition images_of : json -> list json := items_of "images".
Definition tags_of : json -> list json := items_of "tags".
Definition variants_of : json -> list json := items_of "variants".
Definition variant_count (product : json) : nat :=
  length (variants_of product).

(** An image record: a dict whose [src], when present and non-empty, is a
    string. *)
Definition image_shape (img : json) : bool :=
  match img with
  | JDict di =>
      let src := dict_get di "src" JNull in negb (truthy src) || is_str src
  | _ => false
  end.

(** A product record as the data model describes it: a dict whose [images],
    when present, is a list of image records, whose [tags], when present,
    is a list of strings, and whose [variants], when present and not null,
    is a list of dicts. *)
Definition product_shape (product : json) : bool :=
  match product with
  | JDict d =>
      match dict_lookup d "images" with
      | None => true
      | Some (JList imgs) => forallb image_shape imgs
      | Some _ => false
      end
      && match dict_lookup d "tags" with
         | None => true
         | Some (JList ts) => forallb is_str ts
         | Some _ => false
         end
      && match dict_lookup d "variants" with
         | None | Some JNull => true
         | Some (JList vs) => forallb is_dict vs
         | Some _ => false
         end
  | _ => false
  end.

(** The columns of a row, by where their values come from. *)
Definition product_fields : list string :=
  [ "store_domain"; "product_id"; "title"; "handle"; "vendor";
    "product_type"; "created_at"; "updated_at"; "published_at"; "tags";
    "body_html" ].
Definition variant_fields : list string :=
  [ "variant_id"; "variant_title"; "sku"; "price"; "compare_at_price";
    "available"; "variant_created_at"; "variant_updated_at" ].
Definition image_fields : list string := [ "image_src"; "all_image_srcs" ].

(** Each variant column with the key of the variant it is read from. *)
Definition variant_sources : list (string * string) :=
  [ ("variant_id", "id"); ("variant_title", "title"); ("sku", "sku");
    ("price", "price"); ("compare_at_price", "compare_at_price");
    ("available", "available"); ("variant_created_at", "created_at");
    ("variant_updated_at", "updated_at") ].

(** Two rows agree on the given columns. *)
Definition agree_on (keys : list string) (r1 r2 : dict) : Prop :=
  Forall (fun k => dict_lookup r1 k = dict_lookup r2 k) keys.

(** A row holds null in the given columns. *)
Definition all_null (keys : list string) (row : dict) : Prop :=
  Forall (fun k => dict_lookup row k = Some JNull) keys.

(** A row holds, in its variant columns, the values of [variant]. *)
Definition carries_variant (variant : json) (row : dict) : Prop :=
  Forall (fun fk => dict_lookup row (fst fk)
                    = Some (dict_get (as_dict variant) (snd fk) JNull))
         variant_sources.

(** [groups] are the rows [flatten_data] returns, grouped by the product
    they were emitted for. *)
Definition emits (all_products_data : list json) (store_domain : string)
    (groups : list (list dict)) : Prop :=
  flatten_data all_products_data store_domain = Return (concat groups) /\
  Forall2 (fun product rows =>
             flatten_product product store_domain = Return rows)
          all_products_data groups.

(** The shape of the rows of one product: as many rows as variants, or one
    when there is none; every row has the columns of the header; the rows
    agree on the product and image columns; without variants the variant
    columns are null, otherwise the rows follow the variants in order. *)
Definition shape_law (product : json) (rows : list dict) : Prop :=
  length rows = Nat.max 1 (variant_count product) /\
  1 <= length rows /\
  Forall (fun row => map fst row = CSV_HEADERS) rows /\
  (forall r1 r2, r1 ∈ rows -> r2 ∈ rows ->
     agree_on (product_fields ++ image_fields) r1 r2) /\
  (variant_count product = 0 -> Forall (all_null variant_fields) rows) /\
  (1 <= variant_count product ->
     Forall2 carries_variant (variants_of product) rows).

(** The image and tag values the source describes: the [src] of the first
    image, the non-empty [src] texts joined by a bar, the tags joined by a
    comma and a space. *)
Definition first_src (product : json) : json :=
  match images_of product with
  | [] => JNull
  | img :: _ => dict_get (as_dict img) "src" JNull
  end.
Definition joined_srcs (product : json) : string :=
  String.concat "|"
    (List.filter str_truthy
       (map (fun img => str_value (dict_get (as_dict img) "src" JNull))
            (images_of product))).
Definition joined_tag_text (product : json) : string :=
  String.concat ", " (map str_value (tags_of product)).

(** The row built for a product and one of its variants ([None]: the row
    of a product without variants). *)
Definition row_of (store_domain : string) (product : json)
    (variant : option json) : dict :=
  let d := as_dict product in
  let var key :=
    match variant with
    | Some v => dict_get (as_dict v) key JNull
    | None => JNull
    end in
  [ ("store_domain", JStr store_domain);
    ("product_id", dict_get d "id" JNull);
    ("title", dict_get d "title" JNull);
    ("handle", dict_get d "handle" JNull);
    ("vendor", dict_get d "vendor" JNull);
    ("product_type", dict_get d "product_type" JNull);
    ("created_at", dict_get d "created_at" JNull);
    ("updated_at", dict_get d "updated_at" JNull);
    ("published_at", dict_get d "published_at" JNull);
    ("tags", JStr (joined_tag_text product));
    ("body_html", dict_get d "body_html" JNull);
    ("variant_id", var "id");
    ("variant_title", var "title");
    ("sku", var "sku");
    ("price", var "price");
    ("compare_at_price", var "compare_at_price");
    ("available", var "available");
    ("variant_created_at", var "created_at");
    ("variant_updated_at", var "updated_at");
    ("image_src", first_src product);
    ("all_image_srcs", JStr (joined_srcs product)) ].

(** The rows of a product, one per variant or a single one. *)
Definition rows_of (store_domain : string) (product : json) : list dict :=
  match variants_of product with
  | [] => [row_of store_domain product None]
  | vs => map (fun v => row_of store_domain product (Some v)) vs
  end.

(** A product without images: the key is absent or holds an empty list. *)
Definition no_images (product : json) : bool :=
  match dict_lookup (as_dict product) "images" with
  | None | Some (JList []) => true
  | Some _ => false
  end.

(** The image and tag columns of a row hold the values the source
    describes for its product. *)
Definition image_tag_law (product : json) (rows : list dict) : Prop :=
  Forall (fun row =>
            dict_lookup row "image_src" = Some (first_src product) /\
            dict_lookup row "all_image_srcs"
            = Some (JStr (joined_srcs product)) /\
            dict_lookup row "tags" = Some (JStr (joined_tag_text product)))
         rows.

(** The rows of a product without images: a null [image_src] next to an
    empty [all_image_srcs]. *)
Definition no_image_law (product : json) (rows : list dict) : Prop :=
  no_images product = true ->
  rows <> [] /\
  Forall (fun row =>
            dict_lookup row "image_src" = Some JNull /\
            dict_lookup row "all_image_srcs" = Some (JStr ""))
         rows.

(** The product of the concrete scenario and the two rows expected for it. *)
Definition shirt : json :=
  JDict [ ("id", JInt 1); ("title", JStr "Shirt");
          ("tags", JList [JStr "a"; JStr "b"]);
          ("images", JList [JDict [("src", JStr "i1")];
                            JDict [("src", JStr "i2")]]);
          ("variants", JList [JDict [("id", JInt 10); ("price", JStr "20.00")];
                              JDict [("id", JInt 11); ("price", JStr "25.00")]]) ].

Definition shirt_row (variant_id : Z) (price : string) : dict :=
  [ ("store_domain", JStr "example.com"); ("product_id", JInt 1);
    ("title", JStr "Shirt"); ("handle", JNull); ("vendor", JNull);
    ("product_type", JNull); ("created_at", JNull); ("updated_at", JNull);
    ("published_at", JNull); ("tags", JStr "a, b"); ("body_html", JNull);
    ("variant_id", JInt variant_id); ("variant_title", JNull);
    ("sku", JNull); ("price", JStr price); ("compare_at_price", JNull);
    ("available", JNull); ("variant_created_at", JNull);
    ("variant_updated_at", JNull); ("image_src", JStr "i1");
    ("all_image_srcs", JStr "i1|i2") ].

(** A product without variants and without images. *)
Definition plain_product : json :=
  JDict [ ("id", JInt 2); ("title", JStr "Gift card") ].

(** ** The fetcher *)

(** The URL of a page, as [fetch_products] requests it. *)
Definition paginated (url : string) (page : nat) : string :=
  url +:+ "?limit=250&page=" +:+ str_of_nat page.

(** The status of a response is no 4xx or 5xx. *)
Definition status_ok (r : Response) : bool :=
  negb ((400 <=? status_code r) && (status_code r <? 600))%nat.

(** The products of a successful page: the response has a good status and
    its JSON body is an object holding a list under [products]. *)
Definition page_products (o : get_outcome) : option (list json) :=
  match o with
  | GetReturns r =>
      if status_ok r then
        match json_body r with
        | inr (JDict d) =>
            match dict_lookup d "products" with
            | Some (JList ps) => Some ps
            | _ => None
            end
        | _ => None
        end
      else None
  | GetRaises _ => None
  end.

(** A successful page that ends the data: its JSON body is an object
    without a [products] key, or with an empty (falsy) value under it. *)
Definition end_of_data (o : get_outcome) : bool :=
  match o with
  | GetReturns r =>
      status_ok r &&
      match json_body r with
      | inr (JDict d) =>
          match dict_lookup d "products" with
          | None => true
          | Some v => negb (truthy v)
          end
      | _ => false
      end
  | GetRaises _ => false
  end.

(** A page fetch that fails with an exception: [requests.get] raises, the
    status is an error status, or decoding the body raises.  The exception
    is an [Exception]; a [JSONDecodeError] that is no [RequestException]
    comes from decoding the body, not from [requests.get]. *)
Definition page_failure (o : get_outcome) : bool :=
  match o with
  | GetRaises e =>
      isinstance e Exception &&
      (isinstance e RequestException || negb (isinstance e JSONDecodeError))
  | GetReturns r =>
      negb (status_ok r) ||
      match json_body r with
      | inl e => isinstance e Exception
      | inr _ => false
      end
  end.

(** The world after a call that took outcomes from the network, requested
    [reqs] and logged [recs]. *)
Definition advance (w : world) (net : list get_outcome) (reqs : list string)
    (recs : list log_record) : world :=
  {| network := net; faults := faults w; disk := disk w;
     requested := requested w ++ reqs; log := log w ++ recs |}.

(** All records are informational: nothing was logged as an error. *)
Definition all_info (recs : list log_record) : Prop :=
  Forall (fun r => levelname r = INFO) recs.

(** A successful response with a JSON body. *)
Definition ok_response (data : json) : get_outcome :=
  GetReturns {| status_code := 200; text := ""; json_body := inr data |}.

(** A page of [n] products. *)
Definition page_of (n : nat) : get_outcome :=
  ok_response (JDict [("products", JList (repeat plain_product n))]).

(** A world whose network holds the given outcomes, and nothing else. *)
Definition world_of (net : list get_outcome) : world :=
  {| network := net; faults := []; disk := ∅; requested := []; log := [] |}.

(** A full page: a successful page of exactly 250 products. *)
Definition full_page (o : get_outcome) (ps : list json) : Prop :=
  page_products o = Some ps /\ length ps = 250.

(** The URLs of the first [n] pages. *)
Definition pages_requested (url : string) (n : nat) : list string :=
  map (paginated url) (seq 1 n).

(** ** The sink *)

(** The lines of a file; none when the file does not exist. *)
Definition content (w : world) (name : string) : list line :=
  default [] (disk w !! name).

(** The header line followed by rows only: one header line in total, at
    the top of the file. *)
Definition one_header_on_top (headers : list string) (c : list line) : Prop :=
  exists rows, c = Header headers :: map Row rows.

(** The lines a call appends to a file that held [old]: the header first if
    and only if [old] is empty, then one row per list of cells. *)
Definition appended (headers : list string) (old : list line)
    (cells : list (list json)) : list line :=
  (match old with [] => [Header headers] | _ => [] end) ++ map Row cells.

(** A run of [save_to_csv] calls on the same file, one per batch. *)
Fixpoint save_all (batches : list (list dict)) (filename : string)
    (headers : list string) : M unit :=
  match batches with
  | [] => ret tt
  | data :: rest =>
      save_to_csv data filename headers;;
      save_all rest filename headers
  end.

(** The exception of a file fault, if any, is an [Exception]. *)
Definition fault_safe (f : option io_fault) : bool :=
  match f with
  | None => true
  | Some (OpenFails e) | Some (WriteFails _ e) => isinstance e Exception
  end.

(** The world with the file [name] holding [c]. *)
Definition with_file (w : world) (name : string) (c : list line) : world :=
  set_disk (<[name := c]> (disk w)) w.

(** A fault that lets the next line through. *)
Definition lets_through (f : option io_fault) : Prop :=
  match f with
  | Some (WriteFails O _) => False
  | _ => True
  end.

(** The fault once a line went through. *)
Definition after_line (f : option io_fault) : option io_fault :=
  match f with
  | Some (WriteFails (S n) e) => Some (WriteFails n e)
  | _ => f
  end.

(** The exception a fault raises, if it is one. *)
Definition fault_exn (f : option io_fault) : option exn :=
  match f with
  | None => None
  | Some (OpenFails e) | Some (WriteFails _ e) => Some e
  end.

(** What a call of [save_to_csv] under the fault [f] leaves behind: the
    lines it appended and the one record it logged.  The lines are none, or
    the header (on an empty file) and rows; an error is logged unless all
    the rows were written and the fault did not strike (it is no failure of
    [open], and it lets through more lines than were written); without a
    fault, rows that all convert are written without an error, and what is
    written starts with the header when the file was empty. *)
Definition saved (f : option io_fault) (headers : list string)
    (data : list dict) (name : string) (w w' : world) : Prop :=
  network w' = network w /\ requested w' = requested w /\
  exists lines r,
    content w' name = content w name ++ lines /\
    log w' = log w ++ [r] /\
    (lines = [] \/ exists cs, lines = appended headers (content w name) cs) /\
    (levelname r = ERROR \/
     (levelname r = INFO /\
      (exists cs, for_each (dict_to_list headers) data = Return cs /\
                  lines = appended headers (content w name) cs) /\
      (forall e, f <> Some (OpenFails e)) /\
      lets_through (Nat.iter (length lines) after_line f))) /\
    (f = None ->
     forall cs, for_each (dict_to_list headers) data = Return cs ->
                levelname r = INFO) /\
    (f = None ->
     exists cs, lines = appended headers (content w name) cs).

(** A file the sink only ever wrote to: empty, or one header on top. *)
Definition header_ok (headers : list string) (c : list line) : Prop :=
  c = [] \/ one_header_on_top headers c.

(** Every fault still to come raises an [Exception]. *)
Definition faults_safe (w : world) : Prop :=
  Forall (fun f => fault_safe f = true) (faults w).

(** ** The whole run *)

(** A page fetch whose exception, if it raises one, is caught: the
    exception is an [Exception], and a [JSONDecodeError] that is no
    [RequestException] comes from decoding the body, not from
    [requests.get]. *)
Definition outcome_caught (o : get_outcome) : bool :=
  match o with
  | GetRaises e =>
      isinstance e Exception &&
      (isinstance e RequestException || negb (isinstance e JSONDecodeError))
  | GetReturns r =>
      negb (status_ok r) ||
      match json_body r with
      | inl e => isinstance e Exception
      | inr _ => true
      end
  end.

(** The products a page hands to the flattener have the documented shape:
    what the body holds under [products] is a list of product records, or
    nothing that the loop would take items from. *)
Definition products_shaped (o : get_outcome) : bool :=
  match o with
  | GetRaises _ => true
  | GetReturns r =>
      negb (status_ok r) ||
      match json_body r with
      | inr (JDict d) =>
          match dict_lookup d "products" with
          | Some (JList ps) => forallb product_shape ps
          | Some (JStr s) => negb (str_truthy s)
          | Some (JDict d') => match d' with [] => true | _ => false end
          | _ => true
          end
      | _ => true
      end
  end.

Definition outcome_safe (o : get_outcome) : bool :=
  outcome_caught o && products_shaped o.

(** The network holds safe outcomes only and the faults raise
    [Exception]s. *)
Definition safe_world (w : world) : Prop :=
  Forall (fun o => outcome_safe o = true) (network w) /\ faults_safe w.

(** An outcome after which the loop of [fetch_products] goes on to the next
    page: a successful response whose JSON body is an object that holds at
    least 250 items under [products].  On every other outcome that is
    caught the loop ends. *)
Definition goes_on (o : get_outcome) : bool :=
  match o with
  | GetReturns r =>
      status_ok r &&
      match json_body r with
      | inr (JDict d) =>
          match dict_lookup d "products" with
          | Some (JList ps) => (250 <=? length ps)%nat
          | Some (JStr s) => (250 <=? String.length s)%nat
          | Some (JDict d') => (250 <=? length d')%nat
          | _ => false
          end
      | _ => false
      end
  | GetRaises _ => false
  end.

(** The number of outcomes of a network that end a pagination. *)
Definition endings (net : list get_outcome) : nat :=
  length (List.filter (fun o => negb (goes_on o)) net).

(** The URL parser accepts the domain: [urlparse] does not raise on the
    text that [construct_url] hands to it. *)
Definition parser_accepts (lib : stdlib) (domain : string) : bool :=
  match urlparse lib ("//" +:+ domain) with
  | Return _ => true
  | _ => false
  end.

(** ** Concrete inputs *)

(** A standard library whose two routines accept everything. *)
Definition lib0 : stdlib :=
  {| normalize_NFKC := fun s => s; bracketed_host_error := fun _ => None |}.

(** A page whose [products] holds a number in place of a product record. *)
Definition bad_page : get_outcome :=
  ok_response (JDict [("products", JList [JInt 1])]).

(** A page with the product of the concrete scenario. *)
Definition shirt_page : get_outcome :=
  ok_response (JDict [("products", JList [shirt])]).

(** A request that times out, and a body that is no JSON. *)
Definition timed_out : get_outcome :=
  GetRaises (mk_exn Timeout "Read timed out.").
Definition not_json : get_outcome :=
  GetReturns {| status_code := 200; text := "<html>";
                json_body := inl (mk_exn JSONDecodeError "Expecting value") |}.

(** A successful page without a [products] key. *)
Definition no_products_key : get_outcome := ok_response (JDict []).

Definition example_url : string := "https://example.com/products.json".

(** ** What a computation leaves alone *)

(** [m] keeps [R]: whatever the state and however [m] ends (it returns,
    raises or is blocked), the state it leaves is related by [R] to the
    state it started from. *)
Definition keeps {S A} (R : S -> S -> Prop) (m : State S A) : Prop :=
  forall s, R s (snd (m s)).

(** A relation between worlds, seen from inside a function body. *)
Definition on_world {L} (R : world -> world -> Prop)
  : L * world -> L * world -> Prop :=
  fun s s' => R (snd s) (snd s').

(** The later world of a computation that read from the network and logged,
    and did nothing else: same files, same faults to come; requests and log
    records were only added, outcomes only taken from the front of the
    network. *)
Definition reads_only (w w' : world) : Prop :=
  disk w' = disk w /\ faults w' = faults w /\
  log w `prefix_of` log w' /\
  requested w `prefix_of` requested w' /\
  network w' `suffix_of` network w.

(** The later world of a computation that wrote to the file [name] by
    appending, and logged: every other file is as it was, the lines the
    file held are still there, in front; nothing was requested or taken
    from the network. *)
Definition appends_only (name : string) (w w' : world) : Prop :=
  (forall other, other <> name -> disk w' !! other = disk w !! other) /\
  content w name `prefix_of` content w' name /\
  log w `prefix_of` log w' /\
  requested w' = requested w /\ network w' = network w /\
  faults w' `suffix_of` faults w.

(** Both together: what the whole program may do to the world. *)
Definition grows (name : string) (w w' : world) : Prop :=
  (forall other, other <> name -> disk w' !! other = disk w !! other) /\
  content w name `prefix_of` content w' name /\
  log w `prefix_of` log w' /\
  requested w `prefix_of` requested w' /\
  network w' `suffix_of` network w /\
  faults w' `suffix_of` faults w.

(** A relation that holds when the file [name] stays empty or with its one
    header on top, if it was so before. *)
Definition header_stays (name : string) (headers : list string)
    (w w' : world) : Prop :=
  header_ok headers (content w name) -> header_ok headers (content w' name).

(** ** Edge cases *)

(** The ways a call of [construct_url] ends, from the world [w]: with a URL
    around a non-empty location and the world as it was; with no result
    and one error logged, which names the domain; with a [ValueError] and
    the world as it was. *)
Definition url_outcome (domain : string) (w : world)
    (r : outcome (option string) * world) : Prop :=
  match fst r with
  | Return (Some u) =>
      snd r = w /\ exists location, location <> "" /\ u = endpoint location
  | Return None =>
      same_but_log w (snd r) /\
      log (snd r)
      = log w ++ [{| levelname := ERROR;
                     message := "Could not parse domain: " +:+ domain |}]
  | Raise e => snd r = w /\ exn_cls e = ValueError
  | Blocked => False
  end.

(** A successful response whose JSON body is no object: null, a boolean,
    a number, a string or a list. *)
Definition not_an_object (o : get_outcome) : bool :=
  match o with
  | GetReturns r =>
      status_ok r &&
      match json_body r with
      | inr (JDict _) | inl _ => false
      | inr _ => true
      end
  | GetRaises _ => false
  end.

(** A row with a key that is not among the field names. *)
Definition has_extra_key (headers : list string) (row : dict) : bool :=
  existsb (fun kv => negb (str_mem (fst kv) headers)) row.

(** A request interrupted from the keyboard, a body that does not decode
    (as [requests] reports it), a product with null in place of its images,
    one with null in place of its variants, and a row with a column the
    header does not have. *)
Definition interrupted : get_outcome :=
  GetRaises (mk_exn KeyboardInterrupt "").
Definition decode_error : exn :=
  mk_exn RequestsJSONDecodeError "Expecting value".
Definition undecodable : Response :=
  {| status_code := 200; text := "<html>"; json_body := inl decode_error |}.
Definition null_images : dict := [("id", JInt 3); ("images", JNull)].
Definition null_variants : dict :=
  [("id", JInt 4); ("title", JStr "Mug"); ("variants", JNull)].
Definition odd_row : dict := [("title", JStr "Cap"); ("colour", JStr "red")].

(** * Properties *)

(** ** The URL builder *)

Section ConstructUrl.
Variable lib : stdlib.

(** [construct_url] prefixes the domain with [//] before parsing, so the
    parser never finds a scheme: its first character is a slash. *)
Lemma split_scheme_slashes (s : string) :
  split_scheme ("//" +:+ s) = ("", "//" +:+ s).
Proof.
  change ("//" +:+ s) with (String "/" (String "/" s)).
  unfold split_scheme.
  destruct (break_at (is_char ":") (String "/" (String "/" s))) as [l r].
  destruct r as [|c r']; [reflexivity|].
  replace (is_alpha "/") with false by reflexivity.
  now rewrite !andb_false_r.
Qed.

Lemma str_filter_id (p : ascii -> bool) (s : string) :
  str_forall p s = true -> str_filter p s = s.
Proof.
  induction s as [|a s IH]; cbn; [reflexivity|].
  intros [Ha Hs]%andb_prop. rewrite Ha. f_equal. auto.
Qed.

Lemma break_at_none (p : ascii -> bool) (s : string) :
  str_forall (fun c => negb (p c)) s = true -> break_at p s = (s, "").
Proof.
  induction s as [|a s IH]; cbn; [reflexivity|].
  intros [Ha Hs]%andb_prop. apply negb_true_iff in Ha. rewrite Ha.
  now rewrite (IH Hs).
Qed.

Lemma str_in_false (c : ascii) (p : ascii -> bool) (s : string) :
  p c = false -> str_forall p s = true -> str_in c s = false.
Proof.
  intros Hc. induction s as [|a s IH]; cbn; [reflexivity|].
  intros [Ha Hs]%andb_prop. rewrite (IH Hs), orb_false_r.
  destruct (Ascii.eqb_spec a c) as [->|]; [congruence | reflexivity].
Qed.

Lemma str_forall_impl (p q : ascii -> bool) (s : string) :
  (forall c, p c = true -> q c = true) ->
  str_forall p s = true -> str_forall q s = true.
Proof.
  intros Hpq. induction s as [|a s IH]; cbn; [reflexivity|].
  intros [Ha Hs]%andb_prop. rewrite (Hpq _ Ha). cbn. auto.
Qed.

Lemma str_forall_filter (p q : ascii -> bool) (s : string) :
  str_forall p s = true -> str_forall p (str_filter q s) = true.
Proof.
  induction s as [|a s IH]; cbn; [reflexivity|].
  intros [Ha Hs]%andb_prop. destruct (q a); cbn; [rewrite Ha|]; auto.
Qed.

Lemma str_forall_break_at (p q : ascii -> bool) (s : string) :
  str_forall p s = true ->
  str_forall p (fst (break_at q s)) = true /\
  str_forall p (snd (break_at q s)) = true.
Proof.
  induction s as [|a s IH]; cbn; [auto|].
  intros [Ha Hs]%andb_prop. destruct (q a); cbn.
  - rewrite Ha, Hs. auto.
  - destruct (IH Hs) as [H1 H2]. destruct (break_at q s); cbn in *.
    rewrite Ha, H1. auto.
Qed.

(** [urlsplit] on a [//]-prefixed text: no scheme, and the network
    location is the host part. *)
Lemma urlsplit_slashes (domain : string) :
  urlsplit lib ("//" +:+ domain) =
    (do _ <~ check_netloc_brackets lib (host_part domain);
     let url := rest_part domain in
     let '(url, fragment) :=
       if str_in "#" url then split1 "#" url else (url, "") in
     let '(url, query) :=
       if str_in "?" url then split1 "?" url else (url, "") in
     do _ <~ checknetloc lib (host_part domain);
     Return {| sr_scheme := ""; sr_netloc := host_part domain;
               sr_path := url; sr_query := query;
               sr_fragment := fragment |}).
Proof.
  unfold urlsplit, host_part, rest_part, cleaned.
  change (lstrip C0_control_or_space ("//" +:+ domain))
    with ("//" +:+ domain).
  change (str_filter (fun c => negb (unsafe_url_byte c)) ("//" +:+ domain))
    with ("//" +:+ str_filter (fun c => negb (unsafe_url_byte c)) domain).
  rewrite split_scheme_slashes.
  change (starts_with_slashes ("//" +:+ ?x)) with true.
  set (d := str_filter _ domain).
  change (splitnetloc ("//" +:+ d))
    with (break_at (fun c => str_in c "/?#") d).
  destruct (break_at (fun c => str_in c "/?#") d) as [n u]. cbn [fst snd].
  destruct (check_netloc_brackets lib n) as [[]| |]; reflexivity.
Qed.

Lemma domain_safe_host (domain : string) :
  domain_safe domain = true ->
  check_netloc_brackets lib (host_part domain) = Return tt /\
  checknetloc lib (host_part domain) = Return tt.
Proof.
  intros H. unfold host_part, cleaned.
  pose proof (str_forall_filter _ (fun c => negb (unsafe_url_byte c)) _ H)
    as H1.
  destruct (str_forall_break_at _ (fun c => str_in c "/?#") _ H1) as [H2 _].
  set (n := fst _) in *. split.
  - unfold check_netloc_brackets.
    assert (str_in "[" n = false) as ->
      by (eapply str_in_false; [|exact H2]; reflexivity).
    assert (str_in "]" n = false) as ->
      by (eapply str_in_false; [|exact H2]; reflexivity).
    reflexivity.
  - unfold checknetloc, isascii.
    erewrite (str_forall_impl _ is_ascii_char n);
      [now rewrite orb_true_r | | exact H2].
    now intros c [? _]%andb_prop.
Qed.

(** On such a domain the parse succeeds, with an empty scheme and the
    host part as network location. *)
Lemma urlparse_safe (domain : string) :
  domain_safe domain = true ->
  exists p, urlparse lib ("//" +:+ domain) = Return p /\
            scheme p = "" /\ netloc p = host_part domain.
Proof.
  intros H. destruct (domain_safe_host domain H) as [Hb Hc].
  unfold urlparse. rewrite urlsplit_slashes, Hb, Hc. cbn [obind].
  destruct (if str_in "#" _ then _ else _) as [u f].
  destruct (if str_in "?" u then _ else _) as [u' q]. cbn [obind].
  destruct (if _ && _ then _ else _) as [u'' ps].
  eexists. split; [reflexivity|]. cbn. auto.
Qed.

#[local] Arguments urlunparse : simpl never.

Lemma urlunparse_endpoint (host : string) :
  str_truthy host = true ->
  urlunparse "https" host "/products.json" "" "" "" = endpoint host.
Proof.
  intros H. unfold urlunparse, urlunsplit, endpoint. cbn [str_truthy].
  rewrite H. reflexivity.
Qed.

(** On a domain the parser accepts, [construct_url] returns: either no
    result, or the endpoint of a non-empty location; it only logs. *)
Lemma construct_url_safe (domain : string) (w : world) :
  domain_safe domain = true ->
  exists r w',
    construct_url lib domain w = (Return r, w') /\ same_but_log w w' /\
    forall u, r = Some u -> str_truthy u = true.
Proof.
  intros H. destruct (urlparse_safe domain H) as (p & Hp & Hs & _).
  unfold construct_url, bind, lift. rewrite Hp, Hs. cbn [str_truthy negb].
  change (negb (String.eqb "" "")) with false. cbn [negb].
  set (n := if str_truthy (netloc p) then netloc p else path p).
  destruct (str_truthy n) eqn:Hn; cbn [negb].
  - rewrite urlunparse_endpoint by exact Hn.
    eexists _, w. split; [reflexivity|]. split; [now repeat split|].
    now intros u [= <-].
  - eexists _, _. split; [reflexivity|]. split; [now repeat split|].
    discriminate.
Qed.

(** For a bare, non-empty host name [D] the builder returns
    [https://D/products.json]. *)
Lemma construct_url_bare_host (domain : string) (w : world) :
  str_truthy domain = true ->
  str_forall host_char domain = true ->
  url_of lib domain w = Return (Some (endpoint domain)).
Proof.
  intros Hne Hh.
  assert (Hc : cleaned domain = domain).
  { apply str_filter_id. revert Hh. apply str_forall_impl.
    now intros c [_ ?]%andb_prop. }
  assert (Hb : break_at (fun c => str_in c "/?#") domain = (domain, "")).
  { apply break_at_none. revert Hh. apply str_forall_impl.
    intros c [[_ Hc']%andb_prop _]%andb_prop.
    apply negb_true_iff in Hc'. apply negb_true_iff.
    cbn in *. repeat (apply orb_false_elim in Hc' as [? Hc']).
    repeat (apply orb_false_intro; auto). }
  assert (Hs : domain_safe domain = true).
  { revert Hh. apply str_forall_impl.
    intros c [[Ha Hc']%andb_prop _]%andb_prop. rewrite Ha. cbn [andb].
    apply negb_true_iff in Hc'. apply negb_true_iff.
    cbn in *. repeat (apply orb_false_elim in Hc' as [? Hc']).
    repeat (apply orb_false_intro; auto). }
  destruct (domain_safe_host domain Hs) as [Hk1 Hk2].
  unfold url_of, construct_url, bind, lift, urlparse.
  rewrite urlsplit_slashes, Hk1, Hk2. unfold host_part, rest_part.
  rewrite Hc, Hb. cbn [fst snd obind str_in].
  cbn. rewrite Hne. cbn. rewrite Hne. cbn.
  now rewrite urlunparse_endpoint.
Qed.

(** The empty domain gives no result. *)
Lemma construct_url_empty (w : world) : url_of lib "" w = Return None.
Proof. reflexivity. Qed.

(** A text that starts with a slash has an empty network location; the
    builder then takes the path for it. *)
Lemma construct_url_path_only (w : world) :
  url_of lib "/shop" w = Return (Some "https:///shop/products.json").
Proof. reflexivity. Qed.

(** C1 (the code at the input that breaks the claim): a domain written
    with its scheme, [https://example.com], does not give
    [https://example.com/products.json].  The parser reads [https:] as the
    network location, and the builder returns
    [https://https:/products.json]. *)
Theorem construct_url_scheme_prefixed (w : world) :
  url_of lib "https://example.com" w
  = Return (Some "https://https:/products.json").
Proof. reflexivity. Qed.

End ConstructUrl.

(** The parser finds no scheme in a [//]-prefixed text, whatever the
    text. *)
Lemma urlparse_no_scheme (lib : stdlib) (domain : string) (p : ParseResult) :
  urlparse lib ("//" +:+ domain) = Return p -> scheme p = "".
Proof.
  unfold urlparse. rewrite urlsplit_slashes.
  destruct (check_netloc_brackets lib (host_part domain)) as [[]|e|];
    cbn [obind]; try discriminate.
  cbv zeta.
  destruct (if str_in "#" _ then _ else _) as [u f].
  destruct (if str_in "?" u then _ else _) as [u' q].
  destruct (checknetloc lib (host_part domain)) as [[]|e|];
    cbn [obind]; try discriminate.
  destruct (if _ && _ then _ else _) as [u'' ps].
  now intros [= <-].
Qed.

(** On a domain the parser accepts, [construct_url] returns: either no
    result, or a non-empty URL; it only logs. *)
Lemma construct_url_accepted (lib : stdlib) (domain : string) (w : world) :
  parser_accepts lib domain = true ->
  exists r w',
    construct_url lib domain w = (Return r, w') /\ same_but_log w w' /\
    forall u, r = Some u -> str_truthy u = true.
Proof.
  unfold parser_accepts.
  destruct (urlparse lib ("//" +:+ domain)) as [p| |] eqn:Hp;
    try discriminate.
  intros _. pose proof (urlparse_no_scheme lib domain p Hp) as Hs.
  unfold construct_url, bind, lift. rewrite Hp, Hs. cbn [str_truthy negb].
  change (negb (String.eqb "" "")) with false. cbn [negb].
  set (n := if str_truthy (netloc p) then netloc p else path p).
  destruct (str_truthy n) eqn:Hn; cbn [negb].
  - rewrite urlunparse_endpoint by exact Hn.
    eexists _, w. split; [reflexivity|]. split; [now repeat split|].
    now intros u [= <-].
  - eexists _, _. split; [reflexivity|]. split; [now repeat split|].
    discriminate.
Qed.

(** ** The flattener *)

Lemma dict_get_lookup (d : dict) (key : string) (x : json) :
  dict_get d key x = default x (dict_lookup d key).
Proof.
  induction d as [|[k v] d IH]; cbn; [reflexivity|].
  destruct (String.eqb k key); [reflexivity | exact IH].
Qed.

Lemma join_strs (sep : string) (l : list string) :
  join sep (map JStr l) = Return (String.concat sep l).
Proof.
  induction l as [|s l IH]; [reflexivity|].
  destruct l as [|t l]; [reflexivity|].
  change (join sep (map JStr (s :: t :: l)))
    with (do r <~ join sep (map JStr (t :: l)); Return (s +:+ sep +:+ r)).
  rewrite IH. reflexivity.
Qed.

Lemma all_str_map (l : list json) :
  forallb is_str l = true -> l = map JStr (map str_value l).
Proof.
  induction l as [|v l IH]; cbn; [reflexivity|].
  intros [Hv Hl]%andb_prop. destruct v; try discriminate.
  cbn. f_equal. auto.
Qed.

Lemma falsy_str_value (v : json) :
  truthy v = false -> str_truthy (str_value v) = false.
Proof.
  destruct v; cbn; try reflexivity.
  unfold str_truthy. now intros ->.
Qed.

(** The comprehension over the images keeps the non-empty [src] texts. *)
Lemma image_srcs_shape (imgs : list json) :
  forallb image_shape imgs = true ->
  image_srcs imgs
  = Return (map JStr
      (List.filter str_truthy
         (map (fun img => str_value (dict_get (as_dict img) "src" JNull))
              imgs))).
Proof.
  induction imgs as [|img imgs IH]; cbn [forallb]; [reflexivity|].
  intros [Hi Hl]%andb_prop. specialize (IH Hl).
  destruct img as [| | | | |di]; try discriminate.
  cbn [image_srcs get obind map as_dict List.filter].
  cbn [image_shape] in Hi.
  rewrite (dict_get_lookup di "src" (JStr "")).
  rewrite (dict_get_lookup di "src" JNull) in *.
  destruct (dict_lookup di "src") as [v|]; cbn [default id] in *.
  - destruct (truthy v) eqn:Hv.
    + destruct v; cbn in Hv, Hi; try (rewrite Hv in Hi; cbn in Hi);
        try discriminate.
      cbn [str_value]. unfold str_truthy at 1.
      rewrite Hv, IH. reflexivity.
    + rewrite (falsy_str_value v Hv). exact IH.
  - cbn. exact IH.
Qed.

Section FlattenProduct.
Variables (d : dict) (store_domain : string).
Hypothesis Hshape : product_shape (JDict d) = true.

Lemma shape_images :
  match dict_lookup d "images" with
  | None => True
  | Some v => v = JList (images_of (JDict d)) /\
              forallb image_shape (images_of (JDict d)) = true
  end.
Proof.
  cbn [product_shape] in Hshape.
  apply andb_prop in Hshape as [[H _]%andb_prop _].
  unfold images_of, items_of. cbn [as_dict].
  destruct (dict_lookup d "images") as [[]|]; try discriminate; auto.
Qed.

Lemma shape_tags :
  match dict_lookup d "tags" with
  | None => True
  | Some v => v = JList (tags_of (JDict d)) /\
              forallb is_str (tags_of (JDict d)) = true
  end.
Proof.
  cbn [product_shape] in Hshape.
  apply andb_prop in Hshape as [[_ H]%andb_prop _].
  unfold tags_of, items_of. cbn [as_dict].
  destruct (dict_lookup d "tags") as [[]|]; try discriminate; auto.
Qed.

Lemma shape_variants :
  match dict_lookup d "variants" with
  | None | Some JNull => True
  | Some v => v = JList (variants_of (JDict d)) /\
              forallb is_dict (variants_of (JDict d)) = true
  end.
Proof.
  cbn [product_shape] in Hshape.
  apply andb_prop in Hshape as [_ H].
  unfold variants_of, items_of. cbn [as_dict].
  destruct (dict_lookup d "variants") as [[]|]; try discriminate; auto.
Qed.

Lemma joined_tags_shape :
  joined_tags (JDict d) = Return (JStr (joined_tag_text (JDict d))).
Proof.
  pose proof shape_tags as H.
  unfold joined_tags, joined_tag_text. cbn [get obind].
  rewrite dict_get_lookup.
  unfold tags_of, items_of in *. cbn [as_dict] in *.
  destruct (dict_lookup d "tags") as [v|]; cbn [default id]; [|reflexivity].
  destruct H as [Hv H]. destruct v as [| | | |l|]; try discriminate Hv.
  cbn [iterate obind].
  rewrite (all_str_map _ H) at 1. rewrite join_strs. reflexivity.
Qed.

Lemma first_image_shape :
  (do images <~ get (JDict d) "images" JNull;
   if truthy images then
     do images <~ get (JDict d) "images" (JList [JDict []]);
     do first <~ first_item images;
     get first "src" JNull
   else Return JNull) = Return (first_src (JDict d)).
Proof.
  pose proof shape_images as H.
  unfold first_src. cbn [get obind]. rewrite !dict_get_lookup.
  unfold images_of, items_of in *. cbn [as_dict] in *.
  destruct (dict_lookup d "images") as [v|]; cbn [default id]; [|reflexivity].
  destruct H as [Hv H]. destruct v as [| | | |l|]; try discriminate Hv.
  destruct l as [|img imgs]; [reflexivity|].
  cbn [truthy first_item obind]. cbn [forallb] in H.
  apply andb_prop in H as [H _].
  destruct img; try discriminate. reflexivity.
Qed.

Lemma all_image_srcs_shape :
  (do images <~ get (JDict d) "images" (JList []);
   do imgs <~ iterate images;
   do srcs <~ image_srcs imgs;
   join "|" srcs) = Return (joined_srcs (JDict d)).
Proof.
  pose proof shape_images as H.
  unfold joined_srcs. cbn [get obind]. rewrite !dict_get_lookup.
  unfold images_of, items_of in *. cbn [as_dict] in *.
  destruct (dict_lookup d "images") as [v|]; cbn [default id]; [|reflexivity].
  destruct H as [Hv H]. destruct v as [| | | |l|]; try discriminate Hv.
  cbn [iterate obind].
  rewrite (image_srcs_shape _ H). cbn [obind]. apply join_strs.
Qed.

(** A product of the documented shape is flattened without an exception,
    into the rows [rows_of] describes. *)
Lemma flatten_product_rows :
  flatten_product (JDict d) store_domain
  = Return (rows_of store_domain (JDict d)).
Proof.
  unfold flatten_product.
  rewrite first_image_shape, all_image_srcs_shape.
  pose proof shape_variants as H. pose proof joined_tags_shape as Ht.
  unfold rows_of. cbn [get obind].
  rewrite (dict_get_lookup d "variants" JNull),
          (dict_get_lookup d "variants" (JList [])).
  unfold variants_of, items_of in *. cbn [as_dict] in *.
  destruct (dict_lookup d "variants") as [v|]; cbn [default id].
  2:{ cbn [truthy negb]. rewrite Ht. reflexivity. }
  destruct v as [| | | |vs|];
    try (exfalso; apply proj1 in H; discriminate H).
  { cbn [truthy negb]. rewrite Ht. reflexivity. }
  destruct H as [_ H]. destruct vs as [|v vs].
  { cbn [truthy negb]. rewrite Ht. reflexivity. }
  cbn [truthy negb iterate obind].
  set (l := v :: vs) in *. clearbody l. clear v vs.
  induction l as [|v l IH]; [reflexivity|].
  cbn [forallb] in H. apply andb_prop in H as [Hv Hl].
  cbn [for_each map]. rewrite (IH Hl), Ht.
  destruct v; try discriminate. reflexivity.
Qed.

End FlattenProduct.

(** The rows [rows_of] describes obey the shape law. *)
Lemma row_of_keys (store_domain : string) (p : json) (v : option json) :
  map fst (row_of store_domain p v) = CSV_HEADERS.
Proof. reflexivity. Qed.

Lemma row_of_agree (store_domain : string) (p : json) (v1 v2 : option json) :
  agree_on (product_fields ++ image_fields)
    (row_of store_domain p v1) (row_of store_domain p v2).
Proof. unfold agree_on. repeat constructor. Qed.

Lemma row_of_null (store_domain : string) (p : json) :
  all_null variant_fields (row_of store_domain p None).
Proof. unfold all_null. repeat constructor. Qed.

Lemma row_of_variant (store_domain : string) (p v : json) :
  carries_variant v (row_of store_domain p (Some v)).
Proof. unfold carries_variant. repeat constructor. Qed.

Lemma rows_of_row (store_domain : string) (p : json) (row : dict) :
  row ∈ rows_of store_domain p ->
  exists v, row = row_of store_domain p v.
Proof.
  unfold rows_of. destruct (variants_of p) as [|v vs].
  - intros ->%list_elem_of_singleton. eauto.
  - intros (x & -> & _)%list_elem_of_fmap. eauto.
Qed.

Lemma rows_of_shape (store_domain : string) (p : json) :
  shape_law p (rows_of store_domain p).
Proof.
  unfold shape_law, variant_count, rows_of.
  destruct (variants_of p) as [|v vs] eqn:Hvs.
  - repeat split; cbn; auto.
    + intros r1 r2 ->%list_elem_of_singleton ->%list_elem_of_singleton.
      apply row_of_agree.
    + intros _. repeat constructor.
    + lia.
  - set (l := v :: vs). repeat split.
    + rewrite length_map. reflexivity.
    + rewrite length_map. cbn. lia.
    + apply Forall_forall. intros r (x & -> & _)%list_elem_of_fmap.
      apply row_of_keys.
    + intros r1 r2 (x1 & -> & _)%list_elem_of_fmap
        (x2 & -> & _)%list_elem_of_fmap.
      apply row_of_agree.
    + cbn. discriminate.
    + intros _. clearbody l. induction l; constructor; auto.
      apply row_of_variant.
Qed.

(** On products of the documented shape [flatten_data] returns, and its
    rows are those of [rows_of], product by product. *)
Lemma flatten_data_emits (ps : list json) (store_domain : string) :
  forallb product_shape ps = true ->
  emits ps store_domain (map (rows_of store_domain) ps).
Proof.
  unfold emits. induction ps as [|p ps IH]; cbn [forallb].
  - intros _. split; [reflexivity | constructor].
  - intros [Hp Hps]%andb_prop. destruct (IH Hps) as [IH1 IH2].
    destruct p; try discriminate.
    pose proof (flatten_product_rows _ store_domain Hp) as E.
    split.
    + cbn [flatten_data map concat]. rewrite E, IH1. reflexivity.
    + constructor; assumption.
Qed.

Lemma Forall2_rows_of (P : json -> list dict -> Prop) (store_domain : string)
    (ps : list json) :
  (forall p, P p (rows_of store_domain p)) ->
  Forall2 P ps (map (rows_of store_domain) ps).
Proof. intros H. induction ps; constructor; auto. Qed.

(** C2: for products of the documented shape [flatten_data] returns, and
    the rows it emits for a product with N variants are N rows when N >= 1
    and one row when N = 0 (so max(1, N) rows, at least one); the rows of a
    product agree on the product and image columns and follow its variants
    in their variant columns; the single row of a product without variants
    holds null in every variant column. *)
Theorem flatten_data_shape (all_products_data : list json)
    (store_domain : string) :
  forallb product_shape all_products_data = true ->
  exists groups,
    emits all_products_data store_domain groups /\
    Forall2 shape_law all_products_data groups.
Proof.
  intros H. exists (map (rows_of store_domain) all_products_data).
  split; [now apply flatten_data_emits|].
  apply Forall2_rows_of. intros p. apply rows_of_shape.
Qed.

Lemma rows_of_image_tag (store_domain : string) (p : json) :
  image_tag_law p (rows_of store_domain p).
Proof.
  apply Forall_forall. intros row [v ->]%rows_of_row.
  repeat split.
Qed.

Lemma flatten_shirt :
  flatten_data [shirt] "example.com"
  = Return [shirt_row 10 "20.00"; shirt_row 11 "25.00"].
Proof. reflexivity. Qed.

(** C6: on every row emitted for a product, [image_src] is the [src] of
    the first image (null without images), [all_image_srcs] the non-empty
    [src] values joined by a bar in order, and [tags] the tags joined by a
    comma and a space; the product of the concrete scenario yields exactly
    its two rows, with tags "a, b", image_src "i1", all_image_srcs "i1|i2",
    variant 10 at "20.00" and variant 11 at "25.00". *)
Theorem flatten_data_images_and_tags :
  (forall all_products_data store_domain,
     forallb product_shape all_products_data = true ->
     exists groups,
       emits all_products_data store_domain groups /\
       Forall2 image_tag_law all_products_data groups) /\
  flatten_data [shirt] "example.com"
  = Return [shirt_row 10 "20.00"; shirt_row 11 "25.00"].
Proof.
  split; [|exact flatten_shirt].
  intros ps store_domain H. exists (map (rows_of store_domain) ps).
  split; [now apply flatten_data_emits|].
  apply Forall2_rows_of. intros p. apply rows_of_image_tag.
Qed.

Lemma rows_of_no_image (store_domain : string) (p : json) :
  no_image_law p (rows_of store_domain p).
Proof.
  intros Hno.
  assert (Himg : images_of p = []).
  { unfold images_of, items_of. unfold no_images in Hno.
    destruct (dict_lookup (as_dict p) "images") as [[| | | |[|]|]|];
      try discriminate; reflexivity. }
  split.
  - destruct (rows_of_shape store_domain p) as (_ & Hlen & _).
    intros E. rewrite E in Hlen. cbn in Hlen. lia.
  - apply Forall_forall. intros row [v ->]%rows_of_row.
    cbn [row_of dict_lookup String.eqb Ascii.eqb Bool.eqb].
    unfold first_src, joined_srcs. rewrite Himg. split; reflexivity.
Qed.

(** C10: every row emitted for a product whose [images] is absent or empty
    holds null in [image_src] and the empty string, not null, in
    [all_image_srcs]. *)
Theorem flatten_data_no_images (all_products_data : list json)
    (store_domain : string) :
  forallb product_shape all_products_data = true ->
  exists groups,
    emits all_products_data store_domain groups /\
    Forall2 no_image_law all_products_data groups.
Proof.
  intros H. exists (map (rows_of store_domain) all_products_data).
  split; [now apply flatten_data_emits|].
  apply Forall2_rows_of. intros p. apply rows_of_no_image.
Qed.

(** ** The fetcher *)

#[local] Arguments str_of_nat : simpl never.
#[local] Arguments isinstance : simpl never.
#[local] Arguments String.app : simpl never.
#[local] Arguments Nat.ltb : simpl never.
#[local] Arguments Nat.leb : simpl never.

Lemma dict_has_lookup (d : dict) (key : string) :
  dict_has d key = match dict_lookup d key with
                   | Some _ => true
                   | None => false
                   end.
Proof.
  unfold dict_has.
  induction d as [|[k v] d IH]; cbn; [reflexivity|].
  destruct (String.eqb k key); cbn; [reflexivity | exact IH].
Qed.

Lemma paginated_eq (url : string) (k : nat) :
  url +:+ "?limit=" +:+ str_of_nat 250 +:+ "&page=" +:+ str_of_nat k
  = paginated url k.
Proof. reflexivity. Qed.

(** Unfolds one iteration of the loop down to the outcome it took. *)
Ltac eval_fetch_page :=
  unfold fetch_page, bind, locals, in_world, logging, try_except,
    requests_get, assign, lift, ret, raise_for_status, response_json;
  cbn; rewrite ?paginated_eq.

(** Closes a goal that asks for the records logged by an evaluated
    iteration. *)
Ltac found_records :=
  unfold advance; cbn; rewrite <- ?app_assoc; cbn [app];
  eexists; split;
  [ reflexivity
  | repeat constructor ].

(** The same for an iteration that ended in an exception handler. *)
Ltac found_break :=
  eexists; unfold advance; cbn; rewrite <- ?app_assoc; cbn [app];
  eexists; split; reflexivity.

Lemma fetch_page_full (url : string) (l : fetch_locals) (w : world)
    (o : get_outcome) (net : list get_outcome) (ps : list json) :
  network w = o :: net ->
  page_products o = Some ps ->
  length ps = 250 ->
  exists r recs,
    fetch_page url 250 (l, w)
    = (Return Continue,
       ({| products := products l ++ ps; page := page l + 1;
           response := Some r |},
        advance w net [paginated url (page l)] recs))
    /\ all_info recs.
Proof.
  intros Hnet Ho Hlen. destruct w as [nw fw dw rw lw]. cbn in Hnet. subst nw.
  destruct o as [e|r]; [discriminate|]. cbn in Ho.
  destruct r as [st tx [e|data]]; unfold status_ok in Ho; cbn in Ho.
  { destruct (_ && _); discriminate. }
  destruct ((400 <=? st)%nat && (st <? 600)%nat) eqn:Hst; [discriminate|].
  destruct data as [| | | | |d]; try discriminate.
  destruct (dict_lookup d "products") as [[| | | |ps'|]|] eqn:Hd;
    try discriminate.
  injection Ho as ->.
  eval_fetch_page. rewrite Hst. cbn.
  rewrite dict_has_lookup, !dict_get_lookup, Hd. cbn.
  destruct ps as [|p ps]; [discriminate|]. cbn [truthy].
  rewrite Hlen. cbn.
  eexists. found_records.
Qed.

Lemma fetch_page_last (url : string) (l : fetch_locals) (w : world)
    (o : get_outcome) (net : list get_outcome) (ps : list json) :
  network w = o :: net ->
  page_products o = Some ps ->
  length ps < 250 ->
  exists l' recs,
    fetch_page url 250 (l, w)
    = (Return Break, (l', advance w net [paginated url (page l)] recs))
    /\ products l' = products l ++ ps /\ all_info recs.
Proof.
  intros Hnet Ho Hlen. destruct w as [nw fw dw rw lw]. cbn in Hnet. subst nw.
  destruct o as [e|r]; [discriminate|]. cbn in Ho.
  destruct r as [st tx [e|data]]; unfold status_ok in Ho; cbn in Ho.
  { destruct (_ && _); discriminate. }
  destruct ((400 <=? st)%nat && (st <? 600)%nat) eqn:Hst; [discriminate|].
  destruct data as [| | | | |d]; try discriminate.
  destruct (dict_lookup d "products") as [[| | | |ps'|]|] eqn:Hd;
    try discriminate.
  injection Ho as ->.
  eval_fetch_page. rewrite Hst. cbn.
  rewrite dict_has_lookup, !dict_get_lookup, Hd. cbn.
  apply Nat.ltb_lt in Hlen.
  destruct ps as [|p ps]; cbn in Hlen |- *.
  - eexists. found_records. cbn. now rewrite app_nil_r.
  - rewrite Hlen. cbn.
    eexists. found_records.
Qed.

Lemma fetch_page_end (url : string) (l : fetch_locals) (w : world)
    (o : get_outcome) (net : list get_outcome) :
  network w = o :: net ->
  end_of_data o = true ->
  exists l' recs,
    fetch_page url 250 (l, w)
    = (Return Break, (l', advance w net [paginated url (page l)] recs))
    /\ products l' = products l /\ all_info recs.
Proof.
  intros Hnet Ho. destruct w as [nw fw dw rw lw]. cbn in Hnet. subst nw.
  destruct o as [e|r]; [discriminate|]. cbn in Ho.
  destruct r as [st tx [e|data]]; unfold status_ok in Ho; cbn in Ho;
    apply andb_prop in Ho as [Hst Ho]; [discriminate|].
  apply negb_true_iff in Hst.
  destruct data as [| | | | |d]; try discriminate.
  eval_fetch_page. rewrite Hst. cbn.
  rewrite dict_has_lookup, !dict_get_lookup.
  destruct (dict_lookup d "products") as [v|] eqn:Hd; cbn.
  - apply negb_true_iff in Ho. rewrite Ho. cbn.
    eexists. found_records.
  - eexists. found_records.
Qed.

Lemma fetch_page_failure (url : string) (l : fetch_locals) (w : world)
    (o : get_outcome) (net : list get_outcome) :
  network w = o :: net ->
  page_failure o = true ->
  exists l' recs,
    fetch_page url 250 (l, w)
    = (Return Break, (l', advance w net [paginated url (page l)] recs))
    /\ products l' = products l.
Proof.
  intros Hnet Ho. destruct w as [nw fw dw rw lw]. cbn in Hnet. subst nw.
  destruct o as [e|r]; cbn in Ho.
  - apply andb_prop in Ho as [He Ho]. eval_fetch_page.
    destruct (isinstance e RequestException); cbn.
    { found_break. }
    cbn in Ho. apply negb_true_iff in Ho. rewrite Ho, He. cbn.
    found_break.
  - destruct r as [st tx body]. unfold status_ok in Ho. cbn in Ho.
    eval_fetch_page.
    destruct ((400 <=? st)%nat && (st <? 600)%nat) eqn:Hst; cbn.
    { change (isinstance (mk_exn HTTPError ?m) RequestException) with true.
      cbn. found_break. }
    cbn in Ho. destruct body as [e|data]; [|discriminate]. cbn.
    destruct (isinstance e RequestException); cbn.
    { found_break. }
    destruct (isinstance e JSONDecodeError); cbn.
    { found_break. }
    rewrite Ho. cbn.
    found_break.
Qed.

Lemma advance_advance (w : world) (net1 net2 : list get_outcome)
    (r1 r2 : list string) (l1 l2 : list log_record) :
  advance (advance w net1 r1 l1) net2 r2 l2
  = advance w net2 (r1 ++ r2) (l1 ++ l2).
Proof. unfold advance. cbn. now rewrite <- !app_assoc. Qed.

(** The loop over a run of full pages: it takes them all, appends their
    products and goes on with the next page number. *)
Lemma fetch_loop_full_pages (url : string) (os : list get_outcome)
    (pss : list (list json)) :
  Forall2 full_page os pss ->
  forall (fuel : nat) (l : fetch_locals) (w : world) (net : list get_outcome),
    network w = os ++ net ->
    exists l' recs,
      fetch_loop (length os + fuel) url 250 (l, w)
      = fetch_loop fuel url 250
          (l', advance w net (map (paginated url) (seq (page l) (length os)))
                 recs)
      /\ products l' = products l ++ concat pss
      /\ page l' = page l + length os
      /\ all_info recs.
Proof.
  induction 1 as [|o ps os pss [Ho Hlen] _ IH]; intros fuel l w net Hnet.
  - exists l, []. cbn. unfold advance. destruct w; cbn in *. subst.
    rewrite !app_nil_r, Nat.add_0_r. repeat split. constructor.
  - cbn [length Nat.add fetch_loop].
    destruct (fetch_page_full url l w o (os ++ net) ps Hnet Ho Hlen)
      as (r & recs & E & Hrecs).
    unfold bind at 1. rewrite E.
    destruct (IH fuel
                {| products := products l ++ ps; page := page l + 1;
                   response := Some r |}
                (advance w (os ++ net) [paginated url (page l)] recs)
                net eq_refl)
      as (l' & recs' & E' & Hp & Hpage & Hrecs').
    rewrite E'. rewrite advance_advance. cbn [products page] in *.
    exists l', (recs ++ recs'). repeat split.
    + cbn [seq map]. rewrite Nat.add_1_r. reflexivity.
    + rewrite Hp. cbn [concat]. now rewrite app_assoc.
    + rewrite Hpage. lia.
    + now apply Forall_app.
Qed.

(** Pagination that stops: after a run of full pages, an outcome on which
    the iteration breaks with [items] appended ends the call, with all
    products of the pages and nothing further taken from the network. *)
Lemma fetch_products_stops (Q : list log_record -> Prop) (url : string)
    (w : world) (os : list get_outcome) (pss : list (list json))
    (o : get_outcome) (rest : list get_outcome) (items : list json) :
  network w = os ++ o :: rest ->
  Forall2 full_page os pss ->
  (forall l w1, network w1 = o :: rest ->
     exists l' recs,
       fetch_page url 250 (l, w1)
       = (Return Break, (l', advance w1 rest [paginated url (page l)] recs))
       /\ products l' = products l ++ items /\ Q recs) ->
  exists recs1 recs2,
    fetch_products url w
    = (Return (concat pss ++ items),
       advance w rest (pages_requested url (S (length os))) (recs1 ++ recs2))
    /\ all_info recs1 /\ Q recs2.
Proof.
  intros Hnet Hfull Hlast.
  unfold fetch_products, call.
  replace (S (length (network w)))
    with (length os + S (S (length rest)))
    by (rewrite Hnet, length_app; cbn [length]; lia).
  unfold bind at 1.
  destruct (fetch_loop_full_pages url os pss Hfull (S (S (length rest)))
              {| products := []; page := 1; response := None |}
              w (o :: rest) Hnet)
    as (l1 & recs1 & E & Hp & Hpage & Hrecs1).
  rewrite E. cbn [fetch_loop]. unfold bind at 1.
  destruct (Hlast l1 (advance w (o :: rest)
                        (map (paginated url) (seq 1 (length os))) recs1)
              eq_refl)
    as (l2 & recs2 & E2 & Hp2 & HQ).
  cbn [page products app] in *.
  rewrite E2. rewrite advance_advance. cbn.
  exists recs1, recs2. repeat split; auto.
  rewrite Hp2, Hp. cbn [products page seq map app] in *.
  unfold pages_requested. rewrite Hpage.
  change (paginated url 1 :: map (paginated url) (seq 2 (length os)))
    with (map (paginated url) (seq 1 (S (length os)))).
  rewrite seq_S, map_app. reflexivity.
Qed.

Lemma length_concat_sum (pss : list (list json)) :
  length (concat pss) = sum_list_with length pss.
Proof.
  induction pss as [|ps pss IH]; cbn; [reflexivity|].
  now rewrite length_app, IH.
Qed.

(** C3: when every page before the last holds exactly 250 products and the
    last one holds fewer, [fetch_products] returns right after that page:
    it requested these pages and no other, left the rest of the network
    untouched, and returned all their products, as many as the pages held
    together. *)
Theorem fetch_products_last_page (url : string) (w : world)
    (os : list get_outcome) (pss : list (list json)) (o : get_outcome)
    (last : list json) (rest : list get_outcome) :
  network w = os ++ o :: rest ->
  Forall2 full_page os pss ->
  page_products o = Some last ->
  length last < 250 ->
  exists recs,
    fetch_products url w
    = (Return (concat pss ++ last),
       advance w rest (pages_requested url (S (length os))) recs)
    /\ length (concat pss ++ last) = sum_list_with length (pss ++ [last]).
Proof.
  intros Hnet Hfull Ho Hlen.
  destruct (fetch_products_stops all_info url w os pss o rest last Hnet Hfull)
    as (recs1 & recs2 & E & _).
  { intros l w1 Hw1. exact (fetch_page_last url l w1 o rest last Hw1 Ho Hlen). }
  exists (recs1 ++ recs2). split; [exact E|].
  rewrite length_app, sum_list_with_app, length_concat_sum. cbn. lia.
Qed.

(** C4: when a page fetch fails with an exception (the request raises, the
    status is an error status, or the body does not decode),
    [fetch_products] stops there: it returns exactly the products of the
    pages before, requests no further page and leaves the rest of the
    network untouched. *)
Theorem fetch_products_failure (url : string) (w : world)
    (os : list get_outcome) (pss : list (list json)) (o : get_outcome)
    (rest : list get_outcome) :
  network w = os ++ o :: rest ->
  Forall2 full_page os pss ->
  page_failure o = true ->
  exists recs,
    fetch_products url w
    = (Return (concat pss),
       advance w rest (pages_requested url (S (length os))) recs).
Proof.
  intros Hnet Hfull Ho.
  destruct (fetch_products_stops (fun _ => True) url w os pss o rest []
              Hnet Hfull)
    as (recs1 & recs2 & E & _).
  { intros l w1 Hw1.
    destruct (fetch_page_failure url l w1 o rest Hw1 Ho)
      as (l' & recs & E & Hp).
    exists l', recs. rewrite app_nil_r. auto. }
  exists (recs1 ++ recs2). now rewrite app_nil_r in E.
Qed.

(** C5: when a successful page has no [products] key, or an empty list
    under it, [fetch_products] ends the loop there and returns the products
    accumulated so far; it raises nothing and logs no error. *)
Theorem fetch_products_end_of_data (url : string) (w : world)
    (os : list get_outcome) (pss : list (list json)) (o : get_outcome)
    (rest : list get_outcome) :
  network w = os ++ o :: rest ->
  Forall2 full_page os pss ->
  end_of_data o = true ->
  exists recs,
    fetch_products url w
    = (Return (concat pss),
       advance w rest (pages_requested url (S (length os))) recs)
    /\ all_info recs.
Proof.
  intros Hnet Hfull Ho.
  destruct (fetch_products_stops all_info url w os pss o rest [] Hnet Hfull)
    as (recs1 & recs2 & E & H1 & H2).
  { intros l w1 Hw1.
    destruct (fetch_page_end url l w1 o rest Hw1 Ho)
      as (l' & recs & E & Hp & Hr).
    exists l', recs. rewrite app_nil_r. auto. }
  exists (recs1 ++ recs2). rewrite app_nil_r in E.
  split; [exact E | now apply Forall_app].
Qed.

(** ** The sink *)

Lemma content_with_file (w : world) (name : string) (c : list line) :
  content (with_file w name c) name = c.
Proof. unfold content, with_file, set_disk. cbn. now rewrite lookup_insert_eq. Qed.

Lemma with_file_with_file (w : world) (name : string) (c1 c2 : list line) :
  with_file (with_file w name c1) name c2 = with_file w name c2.
Proof. unfold with_file, set_disk. cbn. now rewrite insert_insert_eq. Qed.

Lemma write_line_through (name : string) (ln : line) (f : option io_fault)
    (w : world) (c : list line) :
  lets_through f ->
  content w name = c ->
  write_line name ln (f, w)
  = (Return tt, (after_line f, with_file w name (c ++ [ln]))).
Proof.
  intros Hf <-. unfold write_line, bind, locals, assign, in_world, lift.
  destruct f as [[e|[|n] e]|]; cbn in *; try reflexivity. contradiction.
Qed.

Lemma write_line_stopped (name : string) (ln : line) (e : exn) (w : world) :
  write_line name ln (Some (WriteFails O e), w)
  = (Raise e, (Some (WriteFails O e), w)).
Proof. reflexivity. Qed.

Lemma with_file_same (w : world) (name : string) (c : list line) :
  disk w !! name = Some c -> with_file w name c = w.
Proof.
  intros H. unfold with_file, set_disk. rewrite (insert_id _ _ _ H).
  now destruct w.
Qed.

Lemma disk_with_file (w : world) (name : string) (c : list line) :
  disk (with_file w name c) !! name = Some c.
Proof. unfold with_file, set_disk. cbn. apply lookup_insert_eq. Qed.

Lemma fault_exn_after_line (f : option io_fault) :
  fault_exn (after_line f) = fault_exn f.
Proof. now destruct f as [[e|[|n] e]|]. Qed.

Lemma dict_to_list_raises (headers : list string) (row : dict) (e : exn) :
  dict_to_list headers row = Raise e -> isinstance e Exception = true.
Proof.
  unfold dict_to_list.
  match goal with |- match ?x with _ => _ end = _ -> _ => destruct x end;
    [discriminate|].
  now intros [= <-].
Qed.

Lemma dict_to_list_not_blocked (headers : list string) (row : dict) :
  dict_to_list headers row <> Blocked.
Proof.
  unfold dict_to_list.
  match goal with |- match ?x with _ => _ end <> _ => destruct x end;
    discriminate.
Qed.

(** [writerows] appends one row line per converted row, until a row does
    not convert or the fault strikes. *)
Lemma writerows_spec (name : string) (headers : list string)
    (data : list dict) :
  forall (f : option io_fault) (w : world) (c : list line),
    disk w !! name = Some c ->
    exists res f' cs,
      writerows name headers data (f, w)
      = (res, (f', with_file w name (c ++ map Row cs)))
      /\ fault_exn f' = fault_exn f
      /\ match res with
         | Return _ => for_each (dict_to_list headers) data = Return cs
         | Raise e => isinstance e Exception = true \/ fault_exn f = Some e
         | Blocked => False
         end
      /\ (fault_exn f = None ->
          forall cs0, for_each (dict_to_list headers) data = Return cs0 ->
                      res = Return tt)
      /\ f' = Nat.iter (length cs) after_line f.
Proof.
  induction data as [|row data IH]; intros f w c Hc.
  - exists (Return tt), f, []. cbn. rewrite app_nil_r.
    rewrite (with_file_same _ _ _ Hc). auto.
  - cbn [writerows for_each]. unfold bind at 1. unfold lift at 1.
    destruct (dict_to_list headers row) as [cells|e|] eqn:Hrow.
    + unfold bind at 1.
      assert (Hcase : lets_through f \/ exists e, f = Some (WriteFails O e)).
      { destruct f as [[e|[|n] e]|]; cbn; eauto. }
      destruct Hcase as [Hthrough|[e ->]].
      2:{ rewrite write_line_stopped.
          exists (Raise e), (Some (WriteFails O e)), []. cbn.
          rewrite app_nil_r, (with_file_same _ _ _ Hc).
          repeat split; auto. discriminate. }
      rewrite (write_line_through name (Row cells) f w c Hthrough)
        by (unfold content; now rewrite Hc).
      destruct (IH (after_line f) _ _
                  (disk_with_file w name (c ++ [Row cells])))
        as (res & f' & cs & E & Hf & Hres & Hnone & Hiter).
      rewrite E, with_file_with_file, <- app_assoc.
      rewrite fault_exn_after_line in Hf, Hres, Hnone.
      exists res, f', (cells :: cs); cbn [map app obind].
      split; [reflexivity|]. split; [exact Hf|]. split; [|split].
      * destruct res; auto. now rewrite Hres.
      * intros Hn cs0 Hcs0.
        destruct (for_each (dict_to_list headers) data) as [cs1| |] eqn:Hfe;
          try discriminate.
        exact (Hnone Hn cs1 eq_refl).
      * cbn [length]. now rewrite Nat.iter_succ_r.
    + exists (Raise e), f, []. cbn. rewrite app_nil_r.
      rewrite (with_file_same _ _ _ Hc). split; [reflexivity|].
      split; [reflexivity|]. split; [|split; [discriminate|reflexivity]].
      left. now apply (dict_to_list_raises headers row).
    + now apply dict_to_list_not_blocked in Hrow.
Qed.

#[local] Arguments with_file : simpl never.

Lemma open_append_through (name : string) (f : option io_fault) (w : world) :
  (forall e, f <> Some (OpenFails e)) ->
  open_append name (f, w)
  = (Return tt, (f, with_file w name (content w name))).
Proof.
  intros Hf. unfold open_append, bind, locals, in_world, lift, content.
  cbn [fst snd].
  destruct f as [[e|n e]|]; [now destruct (Hf e) | |];
    cbv beta; cbn [fst snd];
    (destruct (disk w !! name) as [c|] eqn:Hc; cbn [default id fst snd];
     [rewrite (with_file_same _ _ _ Hc); reflexivity | reflexivity]).
Qed.

Lemma file_op_through (f : option io_fault) (w : world) :
  lets_through f -> file_op (f, w) = (Return tt, (f, w)).
Proof.
  intros H1. unfold file_op, bind, locals, lift, ret.
  destruct f as [[e|[|n] e]|]; cbn in *; try reflexivity; try contradiction.
Qed.

Lemma file_op_stopped (e : exn) (w : world) :
  file_op (Some (WriteFails O e), w) = (Raise e, (Some (WriteFails O e), w)).
Proof. reflexivity. Qed.

Lemma lets_through_cases (f : option io_fault) :
  lets_through f \/ exists e, f = Some (WriteFails O e).
Proof. destruct f as [[e|[|n] e]|]; cbn; eauto. Qed.

Lemma getsize_with_file (name : string) (w : world) (c : list line)
    (f : option io_fault) :
  in_world (os_path_getsize name) (f, with_file w name c)
  = (Return (length c), (f, with_file w name c)).
Proof.
  unfold in_world, os_path_getsize. cbn [fst snd].
  now rewrite disk_with_file.
Qed.

(** The header goes first exactly on a file without lines. *)
Lemma header_condition (w : world) (name : string) :
  negb (bool_decide (is_Some (disk w !! name)))
  || (length (content w name) =? 0)%nat
  = match content w name with [] => true | _ => false end.
Proof.
  unfold content. destruct (disk w !! name) as [c|]; cbn [default].
  - rewrite bool_decide_eq_true_2 by eauto. cbn. now destruct c.
  - reflexivity.
Qed.

Lemma save_to_csv_try_spec (f : option io_fault) (data : list dict)
    (name : string) (headers : list string) (w : world) :
  exists res f' w1 lines,
    save_to_csv_try (bool_decide (is_Some (disk w !! name)))
      data name headers (f, w) = (res, (f', w1)) /\
    network w1 = network w /\ requested w1 = requested w /\
    faults w1 = faults w /\
    content w1 name = content w name ++ lines /\
    (lines = [] \/ exists cs, lines = appended headers (content w name) cs) /\
    match res with
    | Return _ =>
        exists r, log w1 = log w ++ [r] /\ levelname r = INFO /\
          (exists cs, for_each (dict_to_list headers) data = Return cs /\
                      lines = appended headers (content w name) cs) /\
          (forall e, f <> Some (OpenFails e)) /\
          lets_through (Nat.iter (length lines) after_line f)
    | Raise e =>
        log w1 = log w /\
        (isinstance e Exception = true \/ fault_exn f = Some e)
    | Blocked => False
    end /\
    (f = None ->
     forall cs, for_each (dict_to_list headers) data = Return cs ->
                res = Return tt) /\
    (f = None -> exists cs, lines = appended headers (content w name) cs).
Proof.
  set (old := content w name).
  assert (Hopen : (exists e, f = Some (OpenFails e)) \/
                  forall e, f <> Some (OpenFails e)).
  { destruct f as [[e|n e]|]; eauto; right; discriminate. }
  destruct Hopen as [[e ->]|Hopen].
  { exists (Raise e), (Some (OpenFails e)), w, []. rewrite app_nil_r.
    repeat split; auto; discriminate. }
  unfold save_to_csv_try. unfold bind at 1.
  rewrite (open_append_through name f w Hopen). fold old.
  unfold bind at 1.
  destruct (lets_through_cases f) as [Hthrough|[e ->]].
  2:{ rewrite file_op_stopped.
      exists (Raise e), (Some (WriteFails O e)), (with_file w name old), [].
      rewrite content_with_file, app_nil_r.
      repeat split; auto; discriminate. }
  rewrite (file_op_through _ _ Hthrough).
  unfold bind at 1. rewrite getsize_with_file.
  unfold old at 1. rewrite header_condition. fold old.
  (* the header step *)
  assert (Hhdr : exists f1,
    (if match old with [] => true | _ => false end
     then writeheader name headers else ret tt) (f, with_file w name old)
    = (Return tt,
       (f1, with_file w name
              (old ++ match old with [] => [Header headers] | _ => [] end)))
    /\ fault_exn f1 = fault_exn f
    /\ f1 = Nat.iter
              (length (match old with [] => [Header headers] | _ => [] end))
              after_line f).
  { destruct old as [|l0 old'] eqn:Hold.
    - unfold writeheader.
      rewrite (write_line_through name (Header headers) f _ [] Hthrough)
        by apply content_with_file.
      rewrite with_file_with_file. eexists. split; [reflexivity|].
      split; [apply fault_exn_after_line | reflexivity].
    - exists f. rewrite app_nil_r. repeat split; reflexivity. }
  destruct Hhdr as (f1 & Ehdr & Hf1 & Hiter1).
  set (hdr := match old with [] => [Header headers] | _ => [] end) in *.
  unfold bind at 1. rewrite Ehdr.
  (* the rows *)
  destruct (writerows_spec name headers data f1 _ _
              (disk_with_file w name (old ++ hdr)))
    as (res & f2 & cs & Erows & Hf2 & Hres & Hnone & Hiter2).
  unfold bind at 1. rewrite Erows, with_file_with_file, <- app_assoc.
  change (hdr ++ map Row cs) with (appended headers old cs).
  rewrite Hf1 in Hf2, Hres, Hnone.
  assert (Hiter : f2 = Nat.iter (length (appended headers old cs))
                         after_line f).
  { unfold appended. fold hdr. rewrite length_app, length_map, Nat.add_comm.
    rewrite Nat.iter_add. now rewrite <- Hiter1. }
  destruct res as [[]|e|]; [| |contradiction].
  2:{ exists (Raise e), f2, (with_file w name (old ++ appended headers old cs)),
        (appended headers old cs).
      rewrite content_with_file. repeat split; eauto.
      intros -> cs0 Hcs0. exact (Hnone eq_refl cs0 Hcs0). }
  (* the close *)
  unfold bind at 1.
  destruct (lets_through_cases f2) as [Hthrough2|[e ->]].
  2:{ rewrite file_op_stopped.
      exists (Raise e), (Some (WriteFails O e)),
        (with_file w name (old ++ appended headers old cs)),
        (appended headers old cs).
      rewrite content_with_file. repeat split; eauto.
      intros ->. discriminate. }
  rewrite (file_op_through _ _ Hthrough2).
  eexists (Return tt), f2, _, (appended headers old cs).
  split; [reflexivity|]. cbn [network requested faults log].
  repeat split; eauto.
  - unfold content. cbn [disk snd]. now rewrite disk_with_file.
  - eexists. split; [reflexivity|]. split; [reflexivity|].
    split; [eauto|]. split; [exact Hopen|]. now rewrite <- Hiter.
Qed.

Lemma fault_safe_exn (f : option io_fault) (e : exn) :
  fault_safe f = true -> fault_exn f = Some e ->
  isinstance e Exception = true.
Proof. destruct f as [[e'|n e']|]; cbn; congruence. Qed.

(** Under a fault whose exception is an [Exception], the body of
    [save_to_csv] returns normally. *)
Lemma save_to_csv_under_spec (f : option io_fault) (data : list dict)
    (name : string) (headers : list string) (w : world) :
  fault_safe f = true ->
  exists w',
    save_to_csv_under f data name headers w = (Return tt, w') /\
    faults w' = faults w /\ saved f headers data name w w'.
Proof.
  intros Hf. unfold save_to_csv_under, call.
  unfold bind at 1. unfold in_world at 1, os_path_isfile. cbn [fst snd].
  unfold try_except.
  destruct (save_to_csv_try_spec f data name headers w)
    as (res & f' & w1 & lines & E & Hn & Hr & Hfs & Hc & Hl & Hres & Hnone
        & Happ).
  rewrite E. destruct res as [[]|e|]; [| |contradiction].
  - destruct Hres as (r & Hlog & Hlev & Hall & Hno & Hthrough).
    exists w1. cbn [snd]. split; [reflexivity|]. split; [exact Hfs|].
    split; [exact Hn|]. split; [exact Hr|].
    exists lines, r. repeat split; eauto.
  - destruct Hres as [Hlog He].
    assert (Hexn : isinstance e Exception = true).
    { destruct He as [He|He]; [exact He | exact (fault_safe_exn f e Hf He)]. }
    rewrite Hexn.
    destruct (isinstance e OSError);
      (eexists; split; [reflexivity|]; cbn [snd fst in_world logging];
       unfold in_world, logging; cbn [fst snd network faults requested];
       split; [exact Hfs|]; split; [exact Hn|]; split; [exact Hr|];
       exists lines; eexists; unfold content in *;
       cbn [disk log levelname]; rewrite Hlog;
       repeat split; eauto;
       intros -> cs Hcs; discriminate (Hnone eq_refl cs Hcs)).
Qed.

Lemma save_to_csv_spec (data : list dict) (name : string)
    (headers : list string) (w : world) :
  fault_safe (default None (head (faults w))) = true ->
  exists w',
    save_to_csv data name headers w = (Return tt, w') /\
    faults w' = tail (faults w) /\
    saved (default None (head (faults w))) headers data name w w'.
Proof.
  intros Hf. unfold save_to_csv, bind, next_fault.
  destruct w as [nw fw dw rw lw]. cbn [faults] in *.
  destruct fw as [|f fw]; cbn [head tail default] in *.
  - exact (save_to_csv_under_spec None data name headers
             {| network := nw; faults := []; disk := dw;
                requested := rw; log := lw |} Hf).
  - destruct (save_to_csv_under_spec f data name headers
                {| network := nw; faults := fw; disk := dw;
                   requested := rw; log := lw |} Hf)
      as (w' & E & Hfs & Hsaved).
    exists w'. cbn [network faults disk requested log]. rewrite E.
    split; [reflexivity|]. split; [exact Hfs|]. exact Hsaved.
Qed.

Lemma header_ok_appended (headers : list string) (old lines : list line) :
  header_ok headers old ->
  (lines = [] \/ exists cs, lines = appended headers old cs) ->
  header_ok headers (old ++ lines).
Proof.
  intros Hold [->|[cs ->]]; [now rewrite app_nil_r|].
  right. destruct Hold as [->|[rows ->]].
  - exists cs. reflexivity.
  - exists (rows ++ cs). unfold appended. cbn. now rewrite map_app.
Qed.

Lemma faults_safe_head (w : world) :
  faults_safe w -> fault_safe (default None (head (faults w))) = true.
Proof.
  unfold faults_safe. destruct (faults w) as [|f fs]; [reflexivity|].
  now intros [H _]%Forall_cons.
Qed.

Lemma faults_safe_tail (w w' : world) :
  faults_safe w -> faults w' = tail (faults w) -> faults_safe w'.
Proof.
  unfold faults_safe. intros H ->. destruct (faults w); [exact H|].
  now apply Forall_cons in H as [_ H].
Qed.

(** A run of calls keeps the file empty or with its one header on top, and
    only appends to it. *)
Lemma save_all_header_ok (filename : string) (headers : list string)
    (batches : list (list dict)) :
  forall w,
    header_ok headers (content w filename) -> faults_safe w ->
    exists w' extra,
      save_all batches filename headers w = (Return tt, w') /\
      content w' filename = content w filename ++ extra /\
      header_ok headers (content w' filename) /\
      faults w' = drop (length batches) (faults w).
Proof.
  induction batches as [|data batches IH]; intros w Hok Hsafe.
  - exists w, []. rewrite app_nil_r. repeat split; auto.
  - cbn [save_all]. unfold bind at 1.
    destruct (save_to_csv_spec data filename headers w
                (faults_safe_head w Hsafe))
      as (w1 & E & Hfs & _ & _ & lines & r & Hc & _ & Hl & _).
    rewrite E.
    assert (Hok1 : header_ok headers (content w1 filename)).
    { rewrite Hc. now apply header_ok_appended. }
    destruct (IH w1 Hok1 (faults_safe_tail w w1 Hsafe Hfs))
      as (w' & extra & E' & Hc' & Hok' & Hfs').
    exists w', (lines ++ extra). rewrite E'. repeat split; auto.
    + now rewrite Hc', Hc, app_assoc.
    + rewrite Hfs', Hfs. cbn [length].
      destruct (faults w); cbn [tail drop]; [now rewrite drop_nil|reflexivity].
Qed.

(** A call without a fault, on rows that all convert, appends the header
    when the file has no line yet, then the rows. *)
Lemma save_to_csv_appends (filename : string) (headers : list string)
    (data : list dict) (w : world) (cs : list (list json)) :
  faults w = [] ->
  for_each (dict_to_list headers) data = Return cs ->
  exists w',
    save_to_csv data filename headers w = (Return tt, w') /\
    content w' filename
    = content w filename ++ appended headers (content w filename) cs.
Proof.
  intros Hfaults Hcs.
  destruct (save_to_csv_spec data filename headers w) as
    (w' & E & _ & _ & _ & lines & r & Hc & _ & _ & Hlev & Hinfo & _).
  { now rewrite Hfaults. }
  rewrite Hfaults in Hinfo. cbn [head default] in Hinfo.
  specialize (Hinfo eq_refl cs Hcs).
  destruct Hlev as [Herr|(_ & (cs' & Hcs' & ->) & _)]; [congruence|].
  exists w'. split; [exact E|]. congruence.
Qed.

(** C8: a call of [save_to_csv] writes the header if and only if the file
    does not exist or has no line yet; so after any run of calls on a file
    that was missing or empty, the file is still empty or holds exactly one
    header line, at its top, and it does hold it when the calls, at least
    one, meet no fault. *)
Theorem header_once (filename : string) (headers : list string) :
  (forall data w cs,
     faults w = [] ->
     for_each (dict_to_list headers) data = Return cs ->
     exists w',
       save_to_csv data filename headers w = (Return tt, w') /\
       content w' filename
       = content w filename ++ appended headers (content w filename) cs) /\
  (forall batches w,
     content w filename = [] ->
     faults_safe w ->
     exists w',
       save_all batches filename headers w = (Return tt, w') /\
       header_ok headers (content w' filename) /\
       (faults w = [] -> batches <> [] ->
        one_header_on_top headers (content w' filename))).
Proof.
  split.
  - intros data w cs. apply save_to_csv_appends.
  - intros batches w Hempty Hsafe.
    destruct (save_all_header_ok filename headers batches w)
      as (w' & extra & E & Hc & Hok & _); [left; exact Hempty | exact Hsafe |].
    exists w'. split; [exact E|]. split; [exact Hok|].
    intros Hfaults Hne. destruct batches as [|data rest]; [congruence|].
    clear Hc Hok.
    destruct (save_to_csv_spec data filename headers w
                (faults_safe_head w Hsafe))
      as (w1 & E1 & Hfs & _ & _ & lines & r & Hc1 & _ & _ & _ & _ & Happ).
    rewrite Hfaults in Happ. destruct (Happ eq_refl) as [cs1 ->].
    rewrite Hempty in Hc1. cbn in Hc1.
    destruct (save_all_header_ok filename headers rest w1)
      as (w2 & extra2 & E2 & Hc2 & Hok2 & _).
    { right. exists cs1. exact Hc1. }
    { exact (faults_safe_tail w w1 Hsafe Hfs). }
    assert (Hrun : save_all (data :: rest) filename headers w
                   = (Return tt, w2)).
    { cbn [save_all]. unfold bind at 1. now rewrite E1. }
    rewrite Hrun in E. injection E as <-.
    destruct Hok2 as [Hnil|Hone]; [|exact Hone].
    rewrite Hc2, Hc1 in Hnil. discriminate.
Qed.

(** ** The columns *)

Lemma obind_Return {A B} (x : outcome A) (f : A -> outcome B) (y : B) :
  obind x f = Return y -> exists a, x = Return a /\ f a = Return y.
Proof. destruct x; cbn; [eauto | discriminate | discriminate]. Qed.

Lemma dict_display_keys (entries : list (string * outcome json)) (d : dict) :
  dict_display entries = Return d -> map fst d = map fst entries.
Proof.
  revert d. induction entries as [|[k e] entries IH]; intros d; cbn.
  - now intros [= <-].
  - intros (v & _ & (d' & Hd' & [= <-])%obind_Return)%obind_Return.
    cbn. f_equal. now apply IH.
Qed.

Lemma for_each_Forall {A B} (f : A -> outcome B) (P : B -> Prop)
    (xs : list A) (ys : list B) :
  (forall x y, f x = Return y -> P y) ->
  for_each f xs = Return ys -> Forall P ys.
Proof.
  intros Hf. revert ys. induction xs as [|x xs IH]; intros ys; cbn.
  - intros [= <-]. constructor.
  - intros (y & Hy & (ys' & Hys' & [= <-])%obind_Return)%obind_Return.
    constructor; eauto.
Qed.

(** Whatever the product, the rows [flatten_product] returns have the
    columns of the header, in its order. *)
Lemma flatten_product_keys (p : json) (store_domain : string)
    (rows : list dict) :
  flatten_product p store_domain = Return rows ->
  Forall (fun row => map fst row = CSV_HEADERS) rows.
Proof.
  unfold flatten_product.
  intros (pid & _ & H)%obind_Return.
  apply obind_Return in H as (img & _ & H).
  apply obind_Return in H as (srcs & _ & H).
  apply obind_Return in H as (vs & _ & H).
  destruct (negb (truthy vs)).
  - apply obind_Return in H as (row & Hrow & [= <-]).
    constructor; [|constructor]. now apply dict_display_keys in Hrow.
  - apply obind_Return in H as (vs' & _ & H).
    apply obind_Return in H as (items & _ & H).
    revert H. apply for_each_Forall.
    intros v row Hrow. now apply dict_display_keys in Hrow.
Qed.

Lemma flatten_data_keys (ps : list json) (store_domain : string) :
  forall rows,
    flatten_data ps store_domain = Return rows ->
    Forall (fun row => map fst row = CSV_HEADERS) rows.
Proof.
  induction ps as [|p ps IH]; intros rows; cbn.
  - intros [= <-]. constructor.
  - intros (r1 & H1 & (r2 & H2 & [= <-])%obind_Return)%obind_Return.
    apply Forall_app. split; [now apply flatten_product_keys in H1 | eauto].
Qed.

Lemma str_mem_In (s : string) (l : list string) :
  In s l -> str_mem s l = true.
Proof.
  unfold str_mem. intros H. apply existsb_exists. exists s.
  split; [exact H | apply String.eqb_refl].
Qed.

Lemma dict_get_fresh (k key : string) (v x : json) (d : dict) :
  k <> key -> dict_get ((k, v) :: d) key x = dict_get d key x.
Proof. intros H. cbn. now apply String.eqb_neq in H as ->. Qed.

Lemma filter_none {A} (p : A -> bool) (l : list A) :
  (forall x, In x l -> p x = false) -> List.filter p l = [].
Proof.
  induction l as [|a l IH]; cbn; [reflexivity|].
  intros H. rewrite (H a) by auto. apply IH. auto.
Qed.

Lemma dict_get_own_keys (row : dict) (x : json) :
  NoDup (map fst row) ->
  map (fun key => dict_get row key x) (map fst row) = map snd row.
Proof.
  induction row as [|[k v] row IH]; cbn [map fst snd]; [reflexivity|].
  intros [Hk Hnd]%NoDup_cons. f_equal.
  - cbn. now rewrite String.eqb_refl.
  - rewrite <- (IH Hnd). apply map_ext_in. intros key Hkey.
    apply dict_get_fresh. intros ->. apply Hk. now apply list_elem_of_In.
Qed.

(** A row whose keys are the field names, without repetition, is written
    as its values, in their order. *)
Lemma dict_to_list_own_keys (row : dict) :
  NoDup (map fst row) ->
  dict_to_list (map fst row) row = Return (map snd row).
Proof.
  intros Hnd. unfold dict_to_list. cbv zeta. rewrite filter_none.
  - now rewrite dict_get_own_keys.
  - intros kv Hkv. apply negb_false_iff, str_mem_In.
    now apply in_map.
Qed.

Lemma CSV_HEADERS_NoDup : NoDup CSV_HEADERS.
Proof. apply (bool_decide_unpack (NoDup CSV_HEADERS)). vm_compute. exact I. Qed.

Lemma flatten_data_cells (ps : list json) (store_domain : string)
    (rows : list dict) :
  flatten_data ps store_domain = Return rows ->
  for_each (dict_to_list CSV_HEADERS) rows = Return (map (map snd) rows).
Proof.
  intros H%flatten_data_keys.
  induction H as [|row rows Hrow _ IH]; [reflexivity|].
  cbn [for_each map]. rewrite IH. rewrite <- Hrow at 1.
  rewrite dict_to_list_own_keys; [reflexivity|].
  rewrite Hrow. apply CSV_HEADERS_NoDup.
Qed.

(** C7 (the claim as stated fails): the header does not have 20 column
    names. *)
Lemma CSV_HEADERS_not_20 : length CSV_HEADERS <> 20.
Proof. cbn. lia. Qed.

(** C7 (amended): the header is a fixed list of exactly 21 distinct column
    names, the product, variant and image columns in this order; every row
    that [flatten_data] returns has these columns in this order, and
    [save_to_csv] writes, under the header, the values of each row in that
    same order. *)
Theorem csv_columns :
  length CSV_HEADERS = 21 /\
  NoDup CSV_HEADERS /\
  CSV_HEADERS = product_fields ++ variant_fields ++ image_fields /\
  (forall all_products_data store_domain rows,
     flatten_data all_products_data store_domain = Return rows ->
     Forall (fun row => map fst row = CSV_HEADERS) rows /\
     for_each (dict_to_list CSV_HEADERS) rows = Return (map (map snd) rows)) /\
  (forall all_products_data store_domain rows w,
     flatten_data all_products_data store_domain = Return rows ->
     faults w = [] ->
     exists w',
       save_to_csv rows CSV_FILENAME CSV_HEADERS w = (Return tt, w') /\
       content w' CSV_FILENAME
       = content w CSV_FILENAME
         ++ appended CSV_HEADERS (content w CSV_FILENAME)
              (map (map snd) rows)).
Proof.
  split; [reflexivity|]. split; [exact CSV_HEADERS_NoDup|].
  split; [reflexivity|]. split.
  - intros ps store_domain rows H. split.
    + exact (flatten_data_keys ps store_domain rows H).
    + exact (flatten_data_cells ps store_domain rows H).
  - intros ps store_domain rows w H Hfaults.
    apply save_to_csv_appends; [exact Hfaults|].
    exact (flatten_data_cells ps store_domain rows H).
Qed.

(** ** The whole run *)

(** Decides [isinstance] on the exceptions the model itself raises. *)
Ltac known_exns :=
  repeat match goal with
  | |- context [isinstance {| exn_cls := ?c; exn_msg := ?m |} ?k] =>
      let b := eval vm_compute in (bool_decide (k ∈ bases c)) in
      change (isinstance {| exn_cls := c; exn_msg := m |} k) with b
  end.

Ltac split_on_limit :=
  match goal with
  | |- context [(?a <? 250)%nat] => destruct (a <? 250)%nat
  end.

Ltac found_page :=
  eexists _, _, _; split;
  [ unfold advance; cbn; rewrite <- ?app_assoc; cbn [app]; reflexivity | ].

Lemma endings_cons (o : get_outcome) (net : list get_outcome) :
  endings (o :: net) = (if goes_on o then 0 else 1) + endings net.
Proof. unfold endings. cbn. now destruct (goes_on o). Qed.

(** Closes the case of a page that reached the limit although the outcome
    does not go on. *)
Ltac limit_reached :=
  match goal with
  | H : (250 <=? ?n)%nat = false, E : (?n <? 250)%nat = false |- _ =>
      apply Nat.leb_gt in H; apply Nat.ltb_ge in E; lia
  end.

Ltac split_at_limit :=
  match goal with
  | |- context [(?a <? 250)%nat] => destruct (a <? 250)%nat eqn:?
  end.

(** Closes the goals of one evaluated iteration: the state it leaves, that
    it breaks when the outcome does not go on, and [tac] for the shape of
    the products. *)
Ltac handled tac :=
  found_page; split; [first [reflexivity | intros; limit_reached] | tac].

(** One iteration on an outcome whose exception is caught does not raise;
    it ends the loop unless the outcome goes on, and it keeps the products
    well shaped when the page is. *)
Lemma fetch_page_handled (url : string) (l : fetch_locals) (w : world)
    (o : get_outcome) (net : list get_outcome) :
  network w = o :: net ->
  outcome_caught o = true ->
  exists c l' recs,
    fetch_page url 250 (l, w)
    = (Return c, (l', advance w net [paginated url (page l)] recs)) /\
    (goes_on o = false -> c = Break) /\
    (products_shaped o = true ->
     forallb product_shape (products l) = true ->
     forallb product_shape (products l') = true).
Proof.
  intros Hnet Ho. destruct w as [nw fw dw rw lw]. cbn in Hnet. subst nw.
  destruct o as [e|r]; cbn in Ho.
  - apply andb_prop in Ho as [He Ho]. eval_fetch_page.
    destruct (isinstance e RequestException); cbn.
    { handled auto. }
    cbn in Ho. apply negb_true_iff in Ho. rewrite Ho, He. cbn.
    handled auto.
  - destruct r as [st tx body].
    unfold products_shaped, goes_on, status_ok in *.
    cbn in Ho |- *. eval_fetch_page.
    destruct ((400 <=? st)%nat && (st <? 600)%nat) eqn:Hst; cbn.
    { known_exns. cbn. handled auto. }
    cbn in Ho. destruct body as [e|data]; cbn.
    { destruct (isinstance e RequestException); cbn; [handled auto|].
      destruct (isinstance e JSONDecodeError); cbn; [handled auto|].
      rewrite Ho. cbn. handled auto. }
    clear Ho.
    destruct data as [|b|n|s|items|d]; cbn.
    + known_exns. cbn. handled auto.
    + known_exns. cbn. handled auto.
    + known_exns. cbn. handled auto.
    + destruct (str_contains "products" s); cbn;
        known_exns; cbn; handled auto.
    + destruct (existsb _ items); cbn; known_exns; cbn; handled auto.
    + rewrite dict_has_lookup, !dict_get_lookup.
      destruct (dict_lookup d "products") as [v|]; cbn; [|handled auto].
      destruct v as [|b|n|s|ps|d']; cbn.
      * handled auto.
      * destruct b; cbn; known_exns; cbn; handled auto.
      * destruct (n =? 0)%Z; cbn; known_exns; cbn; handled auto.
      * destruct s as [|a s]; cbn; [handled auto|].
        split_at_limit; cbn; handled discriminate.
      * destruct ps as [|p ps]; cbn; [handled auto|].
        split_at_limit; cbn;
          handled ltac:(intros Hs Hl; cbn; rewrite forallb_app, Hl; exact Hs).
      * destruct d' as [|kv d']; cbn; [handled auto|].
        split_at_limit; cbn; handled discriminate.
Qed.

(** The loop on a network of caught outcomes that holds an outcome which
    ends the pagination: it returns, having taken the outcomes up to the
    first one on which an iteration breaks. *)
Lemma fetch_loop_returns (url : string) (fuel : nat) :
  forall (l : fetch_locals) (w : world),
    Forall (fun o => outcome_caught o = true) (network w) ->
    1 <= endings (network w) ->
    length (network w) < fuel ->
    exists l' w',
      fetch_loop fuel url 250 (l, w) = (Return tt, (l', w')) /\
      faults w' = faults w /\ disk w' = disk w /\
      (exists k, network w' = drop k (network w)) /\
      endings (network w) <= S (endings (network w')) /\
      (Forall (fun o => products_shaped o = true) (network w) ->
       forallb product_shape (products l) = true ->
       forallb product_shape (products l') = true).
Proof.
  induction fuel as [|fuel IH]; intros l w Hsafe Hend Hlen; [lia|].
  cbn [fetch_loop]. unfold bind at 1.
  destruct (network w) as [|o net] eqn:Hnet; [cbn in Hend; lia|].
  apply Forall_cons in Hsafe as [Ho Hsafe].
  destruct (fetch_page_handled url l w o net Hnet Ho)
    as (c & l1 & recs & E & Hbreak & Hshape).
  rewrite E. rewrite endings_cons in *. destruct c.
  - exists l1, (advance w net [paginated url (page l)] recs).
    cbn [network advance faults disk].
    repeat split; auto.
    + now exists 1.
    + destruct (goes_on o); lia.
    + intros [Hs _]%Forall_cons. auto.
  - destruct (goes_on o) eqn:Hgo; [|now discriminate (Hbreak eq_refl)].
    change (1 <= endings net) in Hend. cbn [length] in Hlen.
    destruct (IH l1 (advance w net [paginated url (page l)] recs))
      as (l' & w' & E' & Hf & Hd & [k Hk] & Hends & Hshape');
      [exact Hsafe | exact Hend | cbn [network advance]; lia |].
    exists l', w'. rewrite E'. cbn [network advance faults disk] in *.
    repeat split; auto.
    + now exists (S k).
    + intros [Hs Hss]%Forall_cons Hl. apply Hshape'; auto.
Qed.

(** [fetch_products] returns on a network of caught outcomes in which the
    pagination ends. *)
Lemma fetch_products_returns (url : string) (w : world) :
  Forall (fun o => outcome_caught o = true) (network w) ->
  1 <= endings (network w) ->
  exists ps w',
    fetch_products url w = (Return ps, w') /\
    faults w' = faults w /\ disk w' = disk w /\
    (exists k, network w' = drop k (network w)) /\
    endings (network w) <= S (endings (network w')) /\
    (Forall (fun o => products_shaped o = true) (network w) ->
     forallb product_shape ps = true).
Proof.
  intros Hsafe Hend. unfold fetch_products, call. unfold bind at 1.
  destruct (fetch_loop_returns url (S (length (network w)))
              {| products := []; page := 1; response := None |} w Hsafe Hend)
    as (l' & w' & E & Hf & Hd & Hk & Hends & Hshape); [lia|].
  rewrite E. eexists _, w'. split; [reflexivity|]. repeat split; auto.
Qed.

Lemma safe_world_same (w w' : world) :
  network w' = network w -> faults w' = faults w ->
  safe_world w -> safe_world w'.
Proof. unfold safe_world, faults_safe. now intros -> ->. Qed.

Lemma safe_world_logging (lv : level) (msg : string) (w : world) :
  safe_world w -> safe_world (snd (logging lv msg w)).
Proof. now apply safe_world_same. Qed.

Lemma safe_world_outcomes (w : world) :
  safe_world w ->
  Forall (fun o => outcome_caught o = true) (network w) /\
  Forall (fun o => products_shaped o = true) (network w).
Proof.
  intros [H _]. split; (eapply Forall_impl; [exact H|]);
    unfold outcome_safe; now intros o [? ?]%andb_prop.
Qed.

Section Run.
Variable lib : stdlib.

(** The work on one domain returns when the parser accepts the domain, the
    world is safe and the pagination of the store ends. *)
Lemma process_domain_returns (domain : string) (w : world) :
  parser_accepts lib domain = true ->
  safe_world w ->
  1 <= endings (network w) ->
  exists w',
    process_domain lib domain w = (Return tt, w') /\
    safe_world w' /\
    endings (network w) <= S (endings (network w')).
Proof.
  intros Hdom Hw Hend. unfold process_domain. unfold bind at 1.
  pose proof (safe_world_logging INFO
    ("--- Processing domain: " +:+ domain +:+ " ---") w Hw) as Hw0.
  assert (Hn0 : network (snd (logging INFO
    ("--- Processing domain: " +:+ domain +:+ " ---") w)) = network w)
    by reflexivity.
  destruct (logging INFO _ w) as [[] w0] eqn:Elog; try discriminate.
  cbn [snd] in Hw0, Hn0. clear Elog. unfold bind at 1.
  destruct (construct_url_accepted lib domain w0 Hdom)
    as (r & w1 & E & (Hn & Hf & _) & Hurl).
  rewrite E.
  assert (Hw1 : safe_world w1) by now apply (safe_world_same w0).
  rewrite <- Hn0, <- Hn in *.
  destruct r as [url|]; [|exists w1; split; [reflexivity|]; split; [auto|lia]].
  rewrite (Hurl url eq_refl). cbn [negb]. unfold bind at 1.
  destruct (safe_world_outcomes w1 Hw1) as [Hcaught Hshaped].
  destruct (fetch_products_returns url w1 Hcaught Hend)
    as (ps & w2 & E2 & Hf2 & _ & [k Hk] & Hends & Hps).
  rewrite E2.
  assert (Hw2 : safe_world w2).
  { destruct Hw1 as [H1 H2]. split.
    - rewrite Hk. now apply Forall_drop.
    - unfold faults_safe. now rewrite Hf2. }
  destruct ps as [|p ps].
  { eexists. split; [reflexivity|]. split; [|exact Hends].
    now apply safe_world_logging. }
  unfold bind at 1.
  pose proof (safe_world_logging INFO
    ("Fetched a total of " +:+ str_of_nat (length (p :: ps))
     +:+ " product entries for " +:+ domain +:+ ".") w2 Hw2) as Hw3.
  assert (Hn3 : network (snd (logging INFO
    ("Fetched a total of " +:+ str_of_nat (length (p :: ps))
     +:+ " product entries for " +:+ domain +:+ ".") w2)) = network w2)
    by reflexivity.
  destruct (logging INFO _ w2) as [[] w3] eqn:Elog; try discriminate.
  cbn [snd] in Hw3, Hn3. clear Elog. unfold bind at 1. unfold lift at 1.
  destruct (flatten_data_emits (p :: ps) domain (Hps Hshaped)) as [Eflat _].
  rewrite Eflat.
  destruct (concat (map (rows_of domain) (p :: ps))) as [|row rows].
  { eexists. split; [reflexivity|]. split; [now apply safe_world_logging|].
    cbn [logging snd network]. now rewrite Hn3. }
  destruct (save_to_csv_spec (row :: rows) CSV_FILENAME CSV_HEADERS w3)
    as (w4 & E4 & Hf4 & Hn4 & _).
  { apply faults_safe_head, Hw3. }
  exists w4. split; [exact E4|]. split.
  - destruct Hw3 as [H1 H2]. split.
    + now rewrite Hn4.
    + exact (faults_safe_tail w3 w4 H2 Hf4).
  - now rewrite Hn4, Hn3.
Qed.

Lemma for_domains_returns (domains : list string) :
  forall w,
    Forall (fun d => parser_accepts lib d = true) domains ->
    safe_world w ->
    length domains <= endings (network w) ->
    exists w', for_domains lib domains w = (Return tt, w').
Proof.
  induction domains as [|domain domains IH]; intros w Hdoms Hw Hend.
  - exists w. reflexivity.
  - apply Forall_cons in Hdoms as [Hdom Hdoms]. cbn [length] in Hend.
    cbn [for_domains]. unfold bind at 1.
    destruct (process_domain_returns domain w Hdom Hw)
      as (w1 & E & Hw1 & Hends); [lia|].
    rewrite E. apply (IH w1 Hdoms Hw1). lia.
Qed.

(** The whole program runs to its end when the parser accepts every
    domain, the world is safe and the network holds, for every domain, an
    outcome that ends a pagination. *)
Lemma main_returns (domains : list string) (w : world) :
  Forall (fun d => parser_accepts lib d = true) domains ->
  safe_world w ->
  length domains <= endings (network w) ->
  exists w', main lib domains w = (Return tt, w').
Proof.
  intros Hdoms Hw Hend.
  unfold main. unfold bind at 1.
  unfold os_path_isfile at 1. unfold bind at 1.
  assert (H0 : exists w0,
    (if bool_decide (is_Some (disk w !! CSV_FILENAME))
     then logging WARNING
            (CSV_FILENAME +:+ " exists. Appending data. "
             +:+ "Delete the file manually for a fresh start.")
     else ret tt) w = (Return tt, w0) /\ safe_world w0 /\
    network w0 = network w).
  { destruct (bool_decide _).
    - eexists. split; [reflexivity|]. split; [|reflexivity].
      now apply safe_world_logging.
    - exists w. auto. }
  destruct H0 as (w0 & E0 & Hw0 & Hn0). rewrite E0. unfold bind at 1.
  destruct (for_domains_returns domains w0 Hdoms Hw0) as (w1 & E);
    [now rewrite Hn0|].
  rewrite E. eexists. reflexivity.
Qed.

End Run.

(** C9 (the claim as stated fails): with two domains configured, when the
    first store answers with a page whose [products] holds a number, the
    exception that [flatten_data] raises leaves the program: the run ends
    there, and the second domain is never requested. *)
Lemma main_aborts :
  let result := main lib0 ["example.com"; "b.com"]
                  (world_of [bad_page; shirt_page]) in
  fst result = Raise (mk_exn AttributeError "object has no attribute 'get'") /\
  requested (snd result) = [paginated example_url 1] /\
  network (snd result) = [shirt_page].
Proof. vm_compute. auto. Qed.

(** C9 (amended): [save_to_csv] returns normally under every fault that
    raises an [Exception], having logged one record, an error unless all
    rows were written; [fetch_products] returns normally when the
    exceptions of its page fetches are caught and some outcome ends the
    pagination (a failure, a page without products, or one of fewer than
    250); and the program runs to its end, without an exception, for every
    list of domains that the URL parser accepts, when the products of every
    page have the documented shape and the network holds, for every domain,
    an outcome that ends a pagination. *)
Theorem failures_stay_local (lib : stdlib) :
  (forall data filename headers w,
     fault_safe (default None (head (faults w))) = true ->
     exists w',
       save_to_csv data filename headers w = (Return tt, w') /\
       saved (default None (head (faults w))) headers data filename w w') /\
  (forall url w,
     Forall (fun o => outcome_caught o = true) (network w) ->
     1 <= endings (network w) ->
     exists ps w', fetch_products url w = (Return ps, w')) /\
  (forall domains w,
     Forall (fun d => parser_accepts lib d = true) domains ->
     safe_world w ->
     length domains <= endings (network w) ->
     exists w', main lib domains w = (Return tt, w')).
Proof.
  split; [|split].
  - intros data filename headers w Hf.
    destruct (save_to_csv_spec data filename headers w Hf)
      as (w' & E & _ & Hsaved).
    eauto.
  - intros url w Hcaught Hend.
    destruct (fetch_products_returns url w Hcaught Hend)
      as (ps & w' & E & _).
    eauto.
  - intros domains w. apply main_returns.
Qed.

(** ** The properties at concrete inputs *)

Lemma flatten_data_shape_witness :
  forallb product_shape [shirt; plain_product] = true /\
  exists groups,
    emits [shirt; plain_product] "example.com" groups /\
    Forall2 shape_law [shirt; plain_product] groups.
Proof.
  split; [reflexivity|].
  apply (flatten_data_shape [shirt; plain_product] "example.com").
  reflexivity.
Defined.

Lemma flatten_data_images_and_tags_witness :
  forallb product_shape [shirt; plain_product] = true /\
  exists groups,
    emits [shirt; plain_product] "example.com" groups /\
    Forall2 image_tag_law [shirt; plain_product] groups.
Proof.
  split; [reflexivity|].
  apply (proj1 flatten_data_images_and_tags
           [shirt; plain_product] "example.com").
  reflexivity.
Defined.

Lemma flatten_data_no_images_witness :
  forallb product_shape [shirt; plain_product] = true /\
  no_images plain_product = true /\
  exists groups,
    emits [shirt; plain_product] "example.com" groups /\
    Forall2 no_image_law [shirt; plain_product] groups.
Proof.
  split; [reflexivity|]. split; [reflexivity|].
  apply (flatten_data_no_images [shirt; plain_product] "example.com").
  reflexivity.
Defined.

Lemma fetch_products_last_page_witness :
  exists recs,
    fetch_products example_url (world_of [page_of 250; page_of 3; shirt_page])
    = (Return (concat [repeat plain_product 250] ++ repeat plain_product 3),
       advance (world_of [page_of 250; page_of 3; shirt_page]) [shirt_page]
         (pages_requested example_url 2) recs)
    /\ length (concat [repeat plain_product 250] ++ repeat plain_product 3)
       = sum_list_with length
           ([repeat plain_product 250] ++ [repeat plain_product 3]).
Proof.
  apply (fetch_products_last_page example_url
           (world_of [page_of 250; page_of 3; shirt_page])
           [page_of 250] [repeat plain_product 250]
           (page_of 3) (repeat plain_product 3) [shirt_page]).
  - reflexivity.
  - constructor; [split; reflexivity | constructor].
  - reflexivity.
  - cbn. lia.
Defined.

Lemma fetch_products_failure_witness :
  page_failure timed_out = true /\
  exists recs,
    fetch_products example_url (world_of [page_of 250; timed_out; shirt_page])
    = (Return (concat [repeat plain_product 250]),
       advance (world_of [page_of 250; timed_out; shirt_page]) [shirt_page]
         (pages_requested example_url 2) recs).
Proof.
  split; [reflexivity|].
  apply (fetch_products_failure example_url
           (world_of [page_of 250; timed_out; shirt_page])
           [page_of 250] [repeat plain_product 250] timed_out [shirt_page]).
  - reflexivity.
  - constructor; [split; reflexivity | constructor].
  - reflexivity.
Defined.

Lemma fetch_products_end_of_data_witness :
  end_of_data no_products_key = true /\
  exists recs,
    fetch_products example_url
      (world_of [page_of 250; no_products_key; shirt_page])
    = (Return (concat [repeat plain_product 250]),
       advance (world_of [page_of 250; no_products_key; shirt_page])
         [shirt_page] (pages_requested example_url 2) recs)
    /\ all_info recs.
Proof.
  split; [reflexivity|].
  apply (fetch_products_end_of_data example_url
           (world_of [page_of 250; no_products_key; shirt_page])
           [page_of 250] [repeat plain_product 250] no_products_key
           [shirt_page]).
  - reflexivity.
  - constructor; [split; reflexivity | constructor].
  - reflexivity.
Defined.

Lemma csv_columns_witness :
  flatten_data [shirt] "example.com"
  = Return [shirt_row 10 "20.00"; shirt_row 11 "25.00"] /\
  exists w',
    save_to_csv [shirt_row 10 "20.00"; shirt_row 11 "25.00"]
      CSV_FILENAME CSV_HEADERS (world_of []) = (Return tt, w') /\
    content w' CSV_FILENAME
    = content (world_of []) CSV_FILENAME
      ++ appended CSV_HEADERS (content (world_of []) CSV_FILENAME)
           (map (map snd) [shirt_row 10 "20.00"; shirt_row 11 "25.00"]).
Proof.
  split; [reflexivity|].
  apply (proj2 (proj2 (proj2 (proj2 csv_columns)))
           [shirt] "example.com" _ (world_of [])); reflexivity.
Defined.

Lemma header_once_witness :
  content (world_of []) CSV_FILENAME = [] /\
  exists w',
    save_all [[shirt_row 10 "20.00"]; [shirt_row 11 "25.00"]]
      CSV_FILENAME CSV_HEADERS (world_of []) = (Return tt, w') /\
    header_ok CSV_HEADERS (content w' CSV_FILENAME) /\
    (faults (world_of []) = [] ->
     [[shirt_row 10 "20.00"]; [shirt_row 11 "25.00"]] <> [] ->
     one_header_on_top CSV_HEADERS (content w' CSV_FILENAME)).
Proof.
  split; [reflexivity|].
  apply (proj2 (header_once CSV_FILENAME CSV_HEADERS)
           [[shirt_row 10 "20.00"]; [shirt_row 11 "25.00"]] (world_of [])).
  - reflexivity.
  - constructor.
Defined.

Lemma failures_stay_local_witness :
  safe_world (world_of [shirt_page; timed_out]) /\
  exists w',
    main lib0 ["example.com"; "[::1]"] (world_of [shirt_page; timed_out])
    = (Return tt, w').
Proof.
  assert (H : safe_world (world_of [shirt_page; timed_out])).
  { split; [repeat constructor | constructor]. }
  split; [exact H|].
  apply (proj2 (proj2 (failures_stay_local lib0))
           ["example.com"; "[::1]"] (world_of [shirt_page; timed_out])).
  - repeat constructor.
  - exact H.
  - vm_compute. lia.
Defined.

(** * Further properties *)

(** ** What the functions leave alone *)

Section Keeps.
Context {S : Type} (R : S -> S -> Prop) `{!PreOrder R}.

Lemma keeps_ret {A} (a : A) : keeps R (ret a).
Proof. intros s. reflexivity. Qed.

Lemma keeps_lift {A} (x : outcome A) : keeps R (lift x).
Proof. intros s. reflexivity. Qed.

Lemma keeps_bind {A B} (m : State S A) (f : A -> State S B) :
  keeps R m -> (forall a, keeps R (f a)) -> keeps R (bind m f).
Proof.
  intros Hm Hf s. unfold bind. specialize (Hm s).
  destruct (m s) as [[a| |] s']; cbn [snd] in *; [|exact Hm|exact Hm].
  etransitivity; [exact Hm | apply Hf].
Qed.

Lemma keeps_try {A} (body : State S A) (handler : exn -> option (State S A)) :
  keeps R body ->
  (forall e, match handler e with Some h => keeps R h | None => True end) ->
  keeps R (try_except body handler).
Proof.
  intros Hb Hh s. unfold try_except. specialize (Hb s).
  destruct (body s) as [[a|e|] s']; cbn [snd] in *; try exact Hb.
  specialize (Hh e). destruct (handler e) as [h|]; [|exact Hb].
  etransitivity; [exact Hb | apply Hh].
Qed.

End Keeps.

Lemma keeps_impl {S A} (R R' : S -> S -> Prop) (m : State S A) :
  (forall s s', R s s' -> R' s s') -> keeps R m -> keeps R' m.
Proof. intros H Hm s. apply H, Hm. Qed.

Global Instance on_world_preorder {L} (R : world -> world -> Prop) :
  PreOrder R -> PreOrder (@on_world L R).
Proof.
  intros HR. split.
  - intros s. unfold on_world. reflexivity.
  - intros s1 s2 s3. unfold on_world. apply transitivity.
Qed.

Lemma keeps_in_world {L A} (R : world -> world -> Prop) (m : M A) :
  keeps R m -> keeps (@on_world L R) (in_world m).
Proof.
  intros H s. unfold on_world, in_world. specialize (H (snd s)).
  now destruct (m (snd s)).
Qed.

Lemma keeps_locals {L} (R : world -> world -> Prop) `{!PreOrder R} :
  keeps (@on_world L R) locals.
Proof. intros s. unfold on_world. reflexivity. Qed.

Lemma keeps_assign {L} (R : world -> world -> Prop) `{!PreOrder R}
    (f : L -> L) :
  keeps (@on_world L R) (assign f).
Proof. intros s. unfold on_world. reflexivity. Qed.

Lemma keeps_call {L A} (R : world -> world -> Prop) (l : L)
    (body : Local L A) :
  keeps (@on_world L R) body -> keeps R (call l body).
Proof.
  intros H w. unfold call. specialize (H (l, w)). unfold on_world in H.
  now destruct (body (l, w)).
Qed.

Global Instance reads_only_preorder : PreOrder reads_only.
Proof.
  split.
  - intros w. now repeat split.
  - intros w1 w2 w3 (Hd & Hf & Hl & Hr & Hn) (Hd' & Hf' & Hl' & Hr' & Hn').
    repeat split; try congruence; etransitivity; eassumption.
Qed.

Global Instance appends_only_preorder (name : string) :
  PreOrder (appends_only name).
Proof.
  split.
  - intros w. now repeat split.
  - intros w1 w2 w3 (Hd & Hc & Hl & Hr & Hn & Hf)
      (Hd' & Hc' & Hl' & Hr' & Hn' & Hf').
    repeat split; try congruence; try (etransitivity; eassumption).
    intros other Ho. now rewrite Hd', Hd.
Qed.

Global Instance grows_preorder (name : string) : PreOrder (grows name).
Proof.
  split.
  - intros w. now repeat split.
  - intros w1 w2 w3 (Hd & Hc & Hl & Hr & Hn & Hf)
      (Hd' & Hc' & Hl' & Hr' & Hn' & Hf').
    repeat split; try (etransitivity; eassumption).
    intros other Ho. now rewrite Hd', Hd.
Qed.

Lemma reads_only_grows (name : string) (w w' : world) :
  reads_only w w' -> grows name w w'.
Proof.
  intros (Hd & Hf & Hl & Hr & Hn). unfold grows, content.
  rewrite Hd, Hf. now repeat split.
Qed.

Lemma appends_only_grows (name : string) (w w' : world) :
  appends_only name w w' -> grows name w w'.
Proof.
  intros (Hd & Hc & Hl & Hr & Hn & Hf). unfold grows.
  rewrite Hr, Hn. now repeat split.
Qed.

Lemma logging_reads_only (lv : level) (msg : string) :
  keeps reads_only (logging lv msg).
Proof.
  intros w. cbn. repeat split; try reflexivity. now eexists.
Qed.

Lemma requests_get_reads_only (url : string) :
  keeps reads_only (requests_get url).
Proof.
  intros w. unfold requests_get.
  destruct (network w) as [|o rest] eqn:Hnet; [reflexivity|].
  assert (H : reads_only w
                {| network := rest; faults := faults w; disk := disk w;
                   requested := requested w ++ [url]; log := log w |}).
  { repeat split; cbn; try reflexivity; [now eexists|].
    rewrite Hnet. now exists [o]. }
  now destruct o.
Qed.

(** One step of a proof that a computation keeps a relation. *)
Ltac keeps_step :=
  first
    [ apply keeps_ret; apply _
    | apply keeps_lift; apply _
    | apply keeps_locals; apply _
    | apply keeps_assign; apply _
    | apply keeps_in_world
    | apply logging_reads_only
    | apply requests_get_reads_only
    | apply keeps_bind; [apply _ | | intros ?]
    | apply keeps_try; [apply _ | | intros ?]
    | progress cbv zeta
    | match goal with
      | |- keeps _ (if ?b then _ else _) => destruct b
      | |- keeps _ (match ?x with _ => _ end) => destruct x
      | |- match (if ?b then _ else _) with _ => _ end => destruct b
      end
    | exact I ].

(** [fetch_products] reads from the network and logs; it does nothing
    else. *)
Lemma fetch_page_reads_only (url : string) (limit : nat) :
  keeps (on_world reads_only) (fetch_page url limit).
Proof. unfold fetch_page. repeat keeps_step. Qed.

Lemma fetch_loop_reads_only (fuel : nat) (url : string) (limit : nat) :
  keeps (on_world reads_only) (fetch_loop fuel url limit).
Proof.
  induction fuel as [|fuel IH]; cbn [fetch_loop]; [keeps_step|].
  apply keeps_bind; [apply _ | apply fetch_page_reads_only|].
  intros []; [keeps_step | exact IH].
Qed.

(** Whatever the network answers and however the call ends,
    [fetch_products] leaves the files and the faults to come as they were;
    it only adds requests and log records and takes outcomes from the front
    of the network. *)
Lemma fetch_products_reads_only (url : string) :
  keeps reads_only (fetch_products url).
Proof.
  intros w. unfold fetch_products.
  apply (keeps_call reads_only). repeat keeps_step.
  apply fetch_loop_reads_only.
Qed.

Lemma logging_appends_only (name : string) (lv : level) (msg : string) :
  keeps (appends_only name) (logging lv msg).
Proof.
  intros w. cbn. repeat split; try reflexivity. now eexists.
Qed.

Lemma next_fault_appends_only (name : string) :
  keeps (appends_only name) next_fault.
Proof.
  intros w. unfold next_fault.
  destruct (faults w) as [|f rest] eqn:Hf; [reflexivity|].
  repeat split; cbn; try reflexivity. rewrite Hf. now exists [f].
Qed.

Lemma os_path_isfile_keeps (R : world -> world -> Prop) `{!PreOrder R}
    (name : string) :
  keeps R (os_path_isfile name).
Proof. intros w. reflexivity. Qed.

Lemma os_path_getsize_keeps (R : world -> world -> Prop) `{!PreOrder R}
    (name : string) :
  keeps R (os_path_getsize name).
Proof.
  intros w. unfold os_path_getsize. destruct (disk w !! name); reflexivity.
Qed.

Lemma appends_only_with_file (w : world) (name : string) (extra : list line) :
  appends_only name w (with_file w name (content w name ++ extra)).
Proof.
  repeat split; try reflexivity.
  - intros other Ho. unfold with_file, set_disk. cbn.
    now rewrite lookup_insert_ne.
  - rewrite content_with_file. now exists extra.
Qed.

Lemma open_append_appends_only (name : string) :
  keeps (on_world (appends_only name)) (open_append name).
Proof.
  intros [f w]. unfold on_world.
  destruct f as [[e|n e]|]; [reflexivity| |];
    (rewrite open_append_through by discriminate; cbn [snd];
     rewrite <- (app_nil_r (content w name));
     apply appends_only_with_file).
Qed.

Lemma write_line_appends_only (name : string) (ln : line) :
  keeps (on_world (appends_only name)) (write_line name ln).
Proof.
  intros [f w]. unfold on_world.
  destruct (lets_through_cases f) as [Hthrough|[e ->]]; [|reflexivity].
  rewrite (write_line_through name ln f w _ Hthrough eq_refl). cbn [snd].
  apply appends_only_with_file.
Qed.

Lemma file_op_appends_only (name : string) :
  keeps (on_world (appends_only name)) file_op.
Proof. unfold file_op. repeat keeps_step. Qed.

Lemma writerows_appends_only (name : string) (headers : list string)
    (data : list dict) :
  keeps (on_world (appends_only name)) (writerows name headers data).
Proof.
  induction data as [|row data IH]; cbn [writerows]; [keeps_step|].
  apply keeps_bind; [apply _ | keeps_step | intros cells].
  apply keeps_bind; [apply _ | apply write_line_appends_only | intros _].
  exact IH.
Qed.

(** One step of a proof that the sink only appends. *)
Ltac sink_step name :=
  first
    [ apply (open_append_appends_only name)
    | apply (write_line_appends_only name)
    | apply (file_op_appends_only name)
    | apply (writerows_appends_only name)
    | apply (logging_appends_only name)
    | apply (next_fault_appends_only name)
    | apply os_path_isfile_keeps; apply _
    | apply os_path_getsize_keeps; apply _
    | keeps_step ].

(** Whatever the fault and however the call ends, [save_to_csv] only
    appends to its file: the lines the file held stay in front, every other
    file is as it was, nothing is requested or taken from the network. *)
Lemma save_to_csv_appends_only (data : list dict) (filename : string)
    (headers : list string) :
  keeps (appends_only filename) (save_to_csv data filename headers).
Proof.
  unfold save_to_csv.
  apply keeps_bind; [apply _ | apply next_fault_appends_only | intros fault].
  unfold save_to_csv_under. apply keeps_call.
  unfold save_to_csv_try, writeheader. repeat sink_step filename.
Qed.

Lemma construct_url_reads_only (lib : stdlib) (domain : string) :
  keeps reads_only (construct_url lib domain).
Proof. unfold construct_url. repeat keeps_step. Qed.

Global Instance header_stays_preorder (name : string)
    (headers : list string) : PreOrder (header_stays name headers).
Proof.
  split.
  - intros w H. exact H.
  - intros w1 w2 w3 H12 H23 H. apply H23, H12, H.
Qed.




(** What the reading functions and the sink keep, the whole program
    keeps. *)
Section MainKeeps.
Variable lib : stdlib.
Variable R : world -> world -> Prop.
Context `{!PreOrder R}.
Hypothesis reading : forall w w', reads_only w w' -> R w w'.
Hypothesis saving :
  forall data, keeps R (save_to_csv data CSV_FILENAME CSV_HEADERS).

Lemma reader_keeps {A} (m : M A) : keeps reads_only m -> keeps R m.
Proof. apply keeps_impl. exact reading. Qed.

(** One step of a proof that the main loop keeps [R]. *)
Ltac main_step :=
  first
    [ apply reader_keeps;
      first [ apply logging_reads_only
            | apply construct_url_reads_only
            | apply fetch_products_reads_only ]
    | apply saving
    | apply os_path_isfile_keeps; apply _
    | keeps_step ].

Lemma process_domain_keeps (domain : string) :
  keeps R (process_domain lib domain).
Proof. unfold process_domain. repeat main_step. Qed.

Lemma for_domains_keeps (domains : list string) :
  keeps R (for_domains lib domains).
Proof.
  induction domains as [|domain domains IH]; cbn [for_domains].
  - main_step.
  - apply keeps_bind; [apply _ | apply process_domain_keeps | intros _].
    exact IH.
Qed.

Lemma main_keeps (domains : list string) : keeps R (main lib domains).
Proof.
  unfold main.
  apply keeps_bind; [apply _ | main_step | intros exists_].
  apply keeps_bind; [apply _ | destruct exists_; main_step | intros _].
  apply keeps_bind; [apply _ | apply for_domains_keeps | intros _].
  main_step.
Qed.

End MainKeeps.

(** ** The URL builder: every outcome *)

Section ConstructUrlOutcomes.
Variable lib : stdlib.

Lemma check_netloc_brackets_outcome (netloc : string) :
  match check_netloc_brackets lib netloc with
  | Return _ => True
  | Raise e => exn_cls e = ValueError
  | Blocked => False
  end.
Proof.
  unfold check_netloc_brackets. cbv zeta.
  destruct (_ || _); [reflexivity|].
  destruct (_ && _); [|exact I].
  destruct (bracketed_host_error lib _); [reflexivity | exact I].
Qed.

Lemma checknetloc_outcome (netloc : string) :
  match checknetloc lib netloc with
  | Return _ => True
  | Raise e => exn_cls e = ValueError
  | Blocked => False
  end.
Proof.
  unfold checknetloc. cbv zeta.
  destruct (_ || _); [exact I|].
  destruct (String.eqb _ _); [exact I|].
  destruct (existsb _ _); [reflexivity | exact I].
Qed.

(** The parse of a [//]-prefixed text finds no scheme and the host part as
    network location, or raises a [ValueError]. *)
Lemma urlparse_slashes_outcome (domain : string) :
  match urlparse lib ("//" +:+ domain) with
  | Return p => scheme p = "" /\ netloc p = host_part domain
  | Raise e => exn_cls e = ValueError
  | Blocked => False
  end.
Proof.
  unfold urlparse. rewrite urlsplit_slashes.
  pose proof (check_netloc_brackets_outcome (host_part domain)) as Hb.
  pose proof (checknetloc_outcome (host_part domain)) as Hc.
  destruct (check_netloc_brackets lib (host_part domain)) as [[]|e|];
    cbn [obind]; [|exact Hb|exact Hb].
  cbv zeta.
  destruct (if str_in "#" _ then _ else _) as [u f].
  destruct (if str_in "?" u then _ else _) as [u' q].
  destruct (checknetloc lib (host_part domain)) as [[]|e|];
    cbn [obind]; [|exact Hc|exact Hc].
  destruct (if _ && _ then _ else _) as [u'' ps]. cbn. auto.
Qed.

(** X1: whatever the domain text, [construct_url] ends in one of three
    ways.  It returns a URL, always of the form
    [https://LOCATION/products.json] with a non-empty location, and leaves
    the world as it was; or it returns no result, having logged exactly one
    record, an error that names the domain; or it raises a [ValueError]
    (the parser's), leaving the world as it was.  It never returns an empty
    URL and never builds a URL with another scheme. *)
Theorem construct_url_outcomes (domain : string) (w : world) :
  url_outcome domain w (construct_url lib domain w).
Proof.
  unfold url_outcome, construct_url, bind, lift.
  pose proof (urlparse_slashes_outcome domain) as Hp.
  destruct (urlparse lib ("//" +:+ domain)) as [p|e|];
    [|split; [reflexivity | exact Hp]|exact Hp].
  destruct Hp as [Hs Hn]. rewrite Hs.
  change (negb (str_truthy "")) with true. cbv iota zeta.
  set (n := if str_truthy (netloc p) then netloc p else path p).
  destruct (str_truthy n) eqn:Hne; cbn [negb fst snd].
  - split; [reflexivity|]. exists n. split.
    + intros E. rewrite E in Hne. discriminate.
    + now apply urlunparse_endpoint.
  - cbn. split; [now repeat split | reflexivity].
Qed.

(** X2: the builder keeps the host part of the domain text and drops the
    rest.  For an ASCII text without square brackets whose part before the
    first [/], [?] or [#] is not empty, the result is
    [https://HOST/products.json] for that part: a path, a query and a
    fragment written after the host are discarded. *)
Theorem construct_url_host_only (domain : string) (w : world) :
  domain_safe domain = true ->
  host_part domain <> "" ->
  url_of lib domain w = Return (Some (endpoint (host_part domain))).
Proof.
  intros Hsafe Hhost.
  destruct (urlparse_safe lib domain Hsafe) as (p & Hp & Hs & Hn).
  assert (Ht : str_truthy (host_part domain) = true).
  { unfold str_truthy. apply negb_true_iff, String.eqb_neq, Hhost. }
  unfold url_of, construct_url, bind, lift. rewrite Hp, Hs, Hn, Ht.
  change (negb (str_truthy "")) with true. cbv iota zeta.
  rewrite Ht. cbn [negb fst ret].
  now rewrite urlunparse_endpoint.
Qed.

(** X3: a domain text whose host part has an opening square bracket
    without a closing one, or a closing one without an opening one, makes
    [construct_url] raise [ValueError("Invalid IPv6 URL")]: the exception
    of the parser is not caught, and nothing is logged. *)
Theorem construct_url_bracket (domain : string) (w : world) :
  str_in "[" (host_part domain) <> str_in "]" (host_part domain) ->
  construct_url lib domain w = (raise ValueError "Invalid IPv6 URL", w).
Proof.
  intros H. unfold construct_url, bind, lift, urlparse.
  rewrite urlsplit_slashes. unfold check_netloc_brackets. cbv zeta.
  destruct (str_in "[" (host_part domain)), (str_in "]" (host_part domain));
    try congruence; reflexivity.
Qed.

End ConstructUrlOutcomes.

(** ** The fetcher: every network *)

(** Closes the goal of one evaluated iteration: the state it leaves, and
    the page number when the loop goes on. *)
Ltac found_step :=
  eexists _, _, _; split;
  [ unfold advance; cbn; rewrite <- ?app_assoc; cbn [app]; reflexivity
  | first [ discriminate | intros _; reflexivity ] ].

(** An iteration that finds an outcome takes it and requests the current
    page, however it ends; when the loop goes on, it is with the next
    page. *)
Lemma fetch_page_step (url : string) (l : fetch_locals) (w : world)
    (o : get_outcome) (net : list get_outcome) :
  network w = o :: net ->
  exists res l' recs,
    fetch_page url 250 (l, w)
    = (res, (l', advance w net [paginated url (page l)] recs)) /\
    (res = Return Continue -> page l' = page l + 1).
Proof.
  intros Hnet. destruct w as [nw fw dw rw lw]. cbn in Hnet. subst nw.
  destruct l as [ps pg resp].
  destruct o as [e|r].
  - eval_fetch_page.
    destruct (isinstance e RequestException); cbn; [found_step|].
    destruct (isinstance e JSONDecodeError); cbn.
    { destruct resp; cbn; found_step. }
    destruct (isinstance e Exception); cbn; found_step.
  - destruct r as [st tx body]. eval_fetch_page.
    destruct ((400 <=? st)%nat && (st <? 600)%nat) eqn:Hst; cbn.
    { known_exns. cbn. found_step. }
    destruct body as [e|data]; cbn.
    { destruct (isinstance e RequestException); cbn; [found_step|].
      destruct (isinstance e JSONDecodeError); cbn; [found_step|].
      destruct (isinstance e Exception); cbn; found_step. }
    destruct data as [|b|n|s|items|d]; cbn.
    + known_exns. cbn. found_step.
    + known_exns. cbn. found_step.
    + known_exns. cbn. found_step.
    + destruct (str_contains "products" s); cbn;
        known_exns; cbn; found_step.
    + destruct (existsb _ items); cbn; known_exns; cbn; found_step.
    + rewrite dict_has_lookup, !dict_get_lookup.
      destruct (dict_lookup d "products") as [v|]; cbn; [|found_step].
      destruct v as [|b|n|s|ps'|d']; cbn.
      * found_step.
      * destruct b; cbn; known_exns; cbn; found_step.
      * destruct (n =? 0)%Z; cbn; known_exns; cbn; found_step.
      * destruct s as [|a s]; cbn; [found_step|].
        split_on_limit; cbn; found_step.
      * destruct ps' as [|p ps']; cbn; [found_step|].
        split_on_limit; cbn; found_step.
      * destruct d' as [|kv d']; cbn; [found_step|].
        split_on_limit; cbn; found_step.
Qed.

Lemma fetch_page_out_of_outcomes (url : string) (l : fetch_locals)
    (w : world) :
  network w = [] ->
  exists w1,
    fetch_page url 250 (l, w) = (Blocked, (l, w1)) /\
    network w1 = [] /\ requested w1 = requested w.
Proof.
  intros Hnet. destruct w as [nw fw dw rw lw]. cbn in Hnet. subst nw.
  eval_fetch_page. eexists. split; [reflexivity|]. cbn. auto.
Qed.

(** The loop requests one page per outcome it takes, with consecutive page
    numbers. *)
Lemma fetch_loop_pages (url : string) (fuel : nat) :
  forall (l : fetch_locals) (w : world),
    exists k,
      k <= length (network w) /\
      network (snd (snd (fetch_loop fuel url 250 (l, w))))
      = drop k (network w) /\
      requested (snd (snd (fetch_loop fuel url 250 (l, w))))
      = requested w ++ map (paginated url) (seq (page l) k).
Proof.
  induction fuel as [|fuel IH]; intros l w.
  - exists 0. cbn. rewrite app_nil_r. split; [lia | auto].
  - cbn [fetch_loop]. unfold bind at 1 2.
    destruct (network w) as [|o net] eqn:Hnet.
    + destruct (fetch_page_out_of_outcomes url l w Hnet) as (w1 & E & Hn & Hr).
      rewrite E. cbn [snd]. exists 0. cbn. rewrite app_nil_r. auto.
    + destruct (fetch_page_step url l w o net Hnet)
        as (res & l1 & recs & E & Hpage).
      rewrite E.
      destruct res as [[]|e|];
        try (exists 1; cbn; split; [lia | split; reflexivity]).
      destruct (IH l1 (advance w net [paginated url (page l)] recs))
        as (k & Hk & Hn & Hr).
      exists (S k). cbn [network advance length] in *.
      split; [lia|]. split; [exact Hn|].
      rewrite Hr. cbn [requested advance seq map].
      rewrite (Hpage eq_refl), Nat.add_1_r, <- app_assoc. reflexivity.
Qed.

(** X4: whatever the network answers and however the call ends (it
    returns, raises, or the scripted network runs out), [fetch_products]
    has made exactly one request per outcome it took from the network, for
    the pages 1, 2, ..., k of the URL in this order: no page is requested
    twice and none is skipped.  It does not touch the files or the faults to
    come. *)
Theorem fetch_products_pages (url : string) (w : world) :
  exists k,
    k <= length (network w) /\
    network (snd (fetch_products url w)) = drop k (network w) /\
    requested (snd (fetch_products url w))
    = requested w ++ pages_requested url k /\
    disk (snd (fetch_products url w)) = disk w /\
    faults (snd (fetch_products url w)) = faults w.
Proof.
  destruct (fetch_products_reads_only url w) as (Hd & Hf & _).
  destruct (fetch_loop_pages url (S (length (network w)))
              {| products := []; page := 1; response := None |} w)
    as (k & Hk & Hn & Hr).
  exists k. split; [exact Hk|].
  assert (E : snd (fetch_products url w)
              = snd (snd (fetch_loop (S (length (network w))) url 250
                            ({| products := []; page := 1; response := None |},
                             w)))).
  { unfold fetch_products, call. cbv zeta. unfold bind at 1.
    destruct (fetch_loop _ _ _ _) as [[[]|e|] [l' w']]; reflexivity. }
  rewrite <- E in Hn, Hr. auto.
Qed.

Lemma bind_raises {S A B} (m : State S A) (f : A -> State S B) (s s' : S)
    (e : exn) :
  bind m f s = (Raise e, s') ->
  m s = (Raise e, s') \/
  exists a s1, m s = (Return a, s1) /\ f a s1 = (Raise e, s').
Proof.
  unfold bind. destruct (m s) as [[a|e0|] s1]; intros H;
    [right; eauto | left; injection H as -> ->; reflexivity | discriminate].
Qed.

Lemma try_except_raises {S A} (body : State S A)
    (handler : exn -> option (State S A)) (s s' : S) (e : exn) :
  try_except body handler s = (Raise e, s') ->
  exists e0 s1,
    body s = (Raise e0, s1) /\
    match handler e0 with
    | Some h => h s1 = (Raise e, s')
    | None => e0 = e
    end.
Proof.
  unfold try_except. destruct (body s) as [[a|e0|] s1]; try discriminate.
  intros H. exists e0, s1. split; [reflexivity|].
  destruct (handler e0); [exact H | congruence].
Qed.

(** What leaves an iteration is what no clause matched, or the exception
    of the second handler. *)
Lemma fetch_page_raises (url : string) (limit : nat)
    (s s' : fetch_locals * world) (e : exn) :
  fetch_page url limit s = (Raise e, s') ->
  isinstance e Exception = false \/ exn_cls e = UnboundLocalError.
Proof.
  unfold fetch_page.
  intros [H|(l & s0 & _ & H)]%bind_raises; [discriminate|].
  apply bind_raises in H as [H|([] & s1 & _ & H)].
  { unfold in_world, logging in H. discriminate. }
  apply try_except_raises in H as (e0 & s2 & _ & H).
  destruct (isinstance e0 RequestException).
  { unfold bind, in_world, logging, ret in H. discriminate. }
  destruct (isinstance e0 JSONDecodeError).
  { unfold bind, in_world, logging, ret, locals, lift in H.
    cbn [fst snd] in H. destruct (response (fst s2)); [discriminate|].
    injection H as <- _. now right. }
  destruct (isinstance e0 Exception) eqn:He.
  { unfold bind, in_world, logging, ret in H. discriminate. }
  left. congruence.
Qed.

Lemma fetch_loop_raises (url : string) (limit : nat) (fuel : nat) :
  forall (s s' : fetch_locals * world) (e : exn),
    fetch_loop fuel url limit s = (Raise e, s') ->
    isinstance e Exception = false \/ exn_cls e = UnboundLocalError.
Proof.
  induction fuel as [|fuel IH]; intros s s' e; cbn [fetch_loop].
  - discriminate.
  - intros [H|(c & s1 & _ & H)]%bind_raises.
    + exact (fetch_page_raises _ _ _ _ _ H).
    + destruct c; [discriminate | exact (IH _ _ _ H)].
Qed.

(** X5: an exception that leaves [fetch_products] is no [Exception] (such
    as a [KeyboardInterrupt], which none of the three clauses matches), or
    it is the [UnboundLocalError] of the second handler, which reads
    [response].  Every other exception raised while a page is fetched,
    checked, decoded or inspected is caught. *)
Theorem fetch_products_escapes (url : string) (w : world) (e : exn) :
  fst (fetch_products url w) = Raise e ->
  isinstance e Exception = false \/ exn_cls e = UnboundLocalError.
Proof.
  unfold fetch_products, call. cbv zeta.
  match goal with
  | |- context [bind ?m ?f ?s] => destruct (bind m f s) as [r s'] eqn:H
  end.
  cbn [fst]. intros ->.
  apply bind_raises in H as [H|([] & s1 & _ & H)].
  - exact (fetch_loop_raises _ _ _ _ _ _ H).
  - discriminate.
Qed.

(** X6: the handler of [json.JSONDecodeError] reads [response], which is
    assigned inside the [try].  When the first call of [requests.get]
    itself raises a [JSONDecodeError] that is no [RequestException], the
    variable is unbound: the handler logs its first error, [Error decoding
    JSON from] with the page URL and the message, then raises
    [UnboundLocalError], which leaves [fetch_products]; the log holds the
    request and that error and nothing else, one page was requested. *)
Theorem fetch_products_unbound_response (url : string) (w : world) (e : exn)
    (rest : list get_outcome) :
  network w = GetRaises e :: rest ->
  isinstance e RequestException = false ->
  isinstance e JSONDecodeError = true ->
  fetch_products url w
  = (raise UnboundLocalError "cannot access local variable 'response'",
     advance w rest [paginated url 1]
       [ {| levelname := INFO;
            message := "Fetching: " +:+ paginated url 1 |};
         {| levelname := ERROR;
            message := "Error decoding JSON from " +:+ paginated url 1
                       +:+ ": " +:+ exn_msg e |} ]).
Proof.
  intros Hnet Hreq Hjson. destruct w as [nw fw dw rw lw]. cbn in Hnet. subst nw.
  unfold fetch_products, call. cbn [network length fetch_loop].
  unfold bind at 1 2. eval_fetch_page. rewrite Hreq, Hjson. cbn.
  unfold advance. cbn. rewrite <- ?app_assoc. reflexivity.
Qed.

Lemma fetch_page_not_an_object (url : string) (l : fetch_locals) (w : world)
    (o : get_outcome) (net : list get_outcome) :
  network w = o :: net ->
  not_an_object o = true ->
  exists l' recs,
    fetch_page url 250 (l, w)
    = (Return Break, (l', advance w net [paginated url (page l)] recs))
    /\ products l' = products l.
Proof.
  intros Hnet Ho. destruct w as [nw fw dw rw lw]. cbn in Hnet. subst nw.
  destruct o as [e|r]; [discriminate|]. cbn in Ho.
  destruct r as [st tx [e|data]]; unfold status_ok in Ho; cbn in Ho;
    apply andb_prop in Ho as [Hst Ho]; [discriminate|].
  apply negb_true_iff in Hst.
  eval_fetch_page. rewrite Hst. cbn.
  destruct data as [|b|n|s|items|d]; cbn; try discriminate.
  - known_exns. cbn. found_break.
  - known_exns. cbn. found_break.
  - known_exns. cbn. found_break.
  - destruct (str_contains "products" s); cbn; known_exns; cbn; found_break.
  - destruct (existsb _ items); cbn; known_exns; cbn; found_break.
Qed.

(** X7: a successful response whose body is valid JSON but no object
    (null, a boolean, a number, a string, a list, even one that holds the
    text [products]) ends the pagination without an exception:
    [fetch_products] returns the products of the full pages before it and
    requests no further page. *)
Theorem fetch_products_not_an_object (url : string) (w : world)
    (os : list get_outcome) (pss : list (list json)) (o : get_outcome)
    (rest : list get_outcome) :
  network w = os ++ o :: rest ->
  Forall2 full_page os pss ->
  not_an_object o = true ->
  exists recs,
    fetch_products url w
    = (Return (concat pss),
       advance w rest (pages_requested url (S (length os))) recs).
Proof.
  intros Hnet Hfull Ho.
  destruct (fetch_products_stops (fun _ => True) url w os pss o rest []
              Hnet Hfull)
    as (recs1 & recs2 & E & _).
  { intros l w1 Hw1.
    destruct (fetch_page_not_an_object url l w1 o rest Hw1 Ho)
      as (l' & recs & E & Hp).
    exists l', recs. rewrite app_nil_r. auto. }
  exists (recs1 ++ recs2). now rewrite app_nil_r in E.
Qed.

(** X8: the [except] clauses are tried in order, so a decoding failure
    that is a [RequestException] (as the [JSONDecodeError] of [requests]
    is) is handled by the first clause, not by the clause for
    [json.JSONDecodeError]: on the first page [fetch_products] returns the
    empty list, having logged the request and one error, [Error fetching]
    with the page URL and the message; the response text is not logged. *)
Theorem fetch_products_decode_error (url : string) (w : world) (r : Response)
    (rest : list get_outcome) (e : exn) :
  network w = GetReturns r :: rest ->
  status_ok r = true ->
  json_body r = inl e ->
  isinstance e RequestException = true ->
  fetch_products url w
  = (Return [],
     advance w rest [paginated url 1]
       [ {| levelname := INFO;
            message := "Fetching: " +:+ paginated url 1 |};
         {| levelname := ERROR;
            message := "Error fetching " +:+ paginated url 1 +:+ ": "
                       +:+ exn_msg e |} ]).
Proof.
  intros Hnet Hst Hbody Hreq. destruct w as [nw fw dw rw lw].
  cbn in Hnet. subst nw. destruct r as [st tx body]. cbn in Hbody. subst body.
  unfold status_ok in Hst. cbn in Hst. apply negb_true_iff in Hst.
  unfold fetch_products, call. cbn [network length fetch_loop].
  unfold bind at 1 2. eval_fetch_page. rewrite Hst. cbn. rewrite Hreq. cbn.
  unfold advance. cbn. rewrite <- ?app_assoc. reflexivity.
Qed.

(** ** The flattener: every input *)

(** X9: flattening distributes over concatenation.  The rows of two lists
    of products flattened together are the rows of the first list followed
    by the rows of the second; and the call raises exactly when one of the
    two parts does, with the exception of the first part that raises. *)
Theorem flatten_data_app (first_pages later_pages : list json)
    (store_domain : string) :
  flatten_data (first_pages ++ later_pages) store_domain
  = (do rows1 <~ flatten_data first_pages store_domain;
     do rows2 <~ flatten_data later_pages store_domain;
     Return (rows1 ++ rows2)).
Proof.
  induction first_pages as [|p ps IH]; cbn [app flatten_data obind].
  - now destruct (flatten_data later_pages store_domain).
  - rewrite IH.
    destruct (flatten_product p store_domain) as [rows| |]; cbn [obind];
      try reflexivity.
    destruct (flatten_data ps store_domain) as [rows1| |]; cbn [obind];
      try reflexivity.
    destruct (flatten_data later_pages store_domain) as [rows2| |];
      cbn [obind]; try reflexivity.
    now rewrite app_assoc.
Qed.

Lemma for_each_length {A B} (f : A -> outcome B) (xs : list A) :
  forall ys, for_each f xs = Return ys -> length ys = length xs.
Proof.
  induction xs as [|x xs IH]; intros ys; cbn.
  - now intros [= <-].
  - intros (y & _ & (ys' & Hys' & [= <-])%obind_Return)%obind_Return.
    cbn. f_equal. now apply IH.
Qed.

Lemma iterate_truthy (v : json) (items : list json) :
  truthy v = true -> iterate v = Return items -> items <> [].
Proof.
  destruct v as [|b|n|s|l|d]; cbn; try discriminate.
  - destruct s; [discriminate|]. now intros _ [= <-].
  - destruct l; [discriminate|]. now intros _ [= <-].
  - destruct d; [discriminate|]. now intros _ [= <-].
Qed.

(** Whatever the product, when it is flattened without an exception it
    gives at least one row. *)
Lemma flatten_product_some_row (p : json) (store_domain : string)
    (rows : list dict) :
  flatten_product p store_domain = Return rows -> 1 <= length rows.
Proof.
  unfold flatten_product.
  intros (pid & _ & H)%obind_Return.
  apply obind_Return in H as (img & _ & H).
  apply obind_Return in H as (srcs & _ & H).
  apply obind_Return in H as (vs & Hvs & H).
  destruct (truthy vs) eqn:Ht; cbn [negb] in H.
  - apply obind_Return in H as (vs' & Hvs' & H).
    apply obind_Return in H as (items & Hitems & H).
    apply for_each_length in H. rewrite H.
    destruct p as [| | | | |d]; try discriminate.
    cbn [get] in Hvs, Hvs'. injection Hvs as <-. injection Hvs' as <-.
    rewrite dict_get_lookup in Ht, Hitems.
    destruct (dict_lookup d "variants") as [v|]; cbn [default id] in *;
      [|discriminate].
    pose proof (iterate_truthy v items Ht Hitems).
    destruct items; [congruence | cbn; lia].
  - apply obind_Return in H as (row & _ & [= <-]). cbn. lia.
Qed.

(** X10: whatever the products look like, when [flatten_data] returns it
    returns at least one row per product: no product is dropped.  So the
    rows of a non-empty list of products are never empty, and the branch
    [No data flattened] of the main loop, taken when [flattened] is empty
    although [products_data] is not, never runs. *)
Theorem flatten_data_some_row (all_products_data : list json)
    (store_domain : string) (rows : list dict) :
  flatten_data all_products_data store_domain = Return rows ->
  length all_products_data <= length rows.
Proof.
  revert rows.
  induction all_products_data as [|p ps IH]; intros rows; cbn.
  - lia.
  - intros (r1 & H1 & (r2 & H2 & [= <-])%obind_Return)%obind_Return.
    apply flatten_product_some_row in H1. apply IH in H2.
    rewrite length_app. lia.
Qed.

(** X11: one product that is no dict (a string, a number, null, a list)
    makes [flatten_data] raise [AttributeError] at its first [.get]: the
    rows of the products before it, which were flattened without an
    exception, are lost with it, and the products after it are not looked
    at. *)
Theorem flatten_data_not_a_dict (before after : list json) (product : json)
    (store_domain : string) (rows : list dict) :
  flatten_data before store_domain = Return rows ->
  is_dict product = false ->
  flatten_data (before ++ product :: after) store_domain
  = raise AttributeError "object has no attribute 'get'".
Proof.
  intros Hrows Hp. revert rows Hrows.
  induction before as [|q before IH]; intros rows Hrows;
    cbn [app flatten_data].
  - destruct product; try discriminate; reflexivity.
  - cbn [flatten_data] in Hrows.
    apply obind_Return in Hrows as (rows1 & H1 & H2).
    apply obind_Return in H2 as (rows2 & H2 & _).
    rewrite H1. cbn [obind]. now rewrite (IH rows2 H2).
Qed.

(** X12: the defaults of [.get] stand in for a missing key only.  A product
    that holds null under [images], or that has no [images] key and holds
    null under [tags], makes [flatten_data] raise [TypeError] (the null is
    iterated or joined); while a null under [variants] is read as no
    variants: a product of the documented shape that holds it gives the
    single row with null in the variant columns, followed by the rows of
    the products after it. *)
Theorem flatten_data_null_list (d : dict) (rest : list json)
    (store_domain : string) :
  (dict_lookup d "images" = Some JNull \/
   (dict_lookup d "images" = None /\ dict_lookup d "tags" = Some JNull) ->
   exists m,
     flatten_data (JDict d :: rest) store_domain = raise TypeError m) /\
  (product_shape (JDict d) = true ->
   dict_lookup d "variants" = Some JNull ->
   flatten_data (JDict d :: rest) store_domain
   = (do rows <~ flatten_data rest store_domain;
      Return (row_of store_domain (JDict d) None :: rows))).
Proof.
  split.
  - intros H. exists "object is not iterable".
    cbn [flatten_data].
    assert (E : flatten_product (JDict d) store_domain
                = raise TypeError "object is not iterable");
      [|now rewrite E].
    unfold flatten_product, joined_tags. cbn [get obind].
    rewrite !dict_get_lookup.
    destruct H as [->|[-> Ht]]; [reflexivity|].
    cbn [default id truthy iterate obind image_srcs join].
    rewrite Ht. cbn [default id].
    destruct (dict_lookup d "variants") as [v|]; cbn [default id];
      [|reflexivity].
    destruct (truthy v) eqn:Hv; cbn [negb]; [|reflexivity].
    destruct (iterate v) as [items| |] eqn:Hitems.
    + pose proof (iterate_truthy v items Hv Hitems).
      destruct items; [congruence | reflexivity].
    + destruct v; try discriminate; cbn in Hitems; now injection Hitems as <-.
    + destruct v; discriminate.
  - intros Hshape Hnull. cbn [flatten_data].
    rewrite (flatten_product_rows d store_domain Hshape).
    unfold rows_of, variants_of, items_of. cbn [as_dict]. rewrite Hnull.
    cbn [obind]. now destruct (flatten_data rest store_domain).
Qed.

(** ** The sink: what reaches the file *)

(** X13: [save_to_csv] never truncates and never touches another file.
    Whatever the rows, the fault and the way the call ends, the lines the
    file held before are still there, in front of what the call added;
    every other file is as it was; nothing is requested and nothing is
    taken from the network. *)
Theorem save_to_csv_never_truncates (data : list dict) (filename : string)
    (headers : list string) (w : world) :
  content w filename
    `prefix_of` content (snd (save_to_csv data filename headers w)) filename /\
  (forall other, other <> filename ->
     disk (snd (save_to_csv data filename headers w)) !! other
     = disk w !! other) /\
  network (snd (save_to_csv data filename headers w)) = network w /\
  requested (snd (save_to_csv data filename headers w)) = requested w.
Proof.
  destruct (save_to_csv_appends_only data filename headers w)
    as (Hd & Hc & _ & Hr & Hn & _).
  auto.
Qed.

Lemma dict_to_list_extra_key (headers : list string) (row : dict) :
  has_extra_key headers row = true ->
  dict_to_list headers row
  = raise ValueError "dict contains fields not in fieldnames".
Proof.
  unfold has_extra_key, dict_to_list. cbv zeta.
  intros (kv & Hin & Hkv)%existsb_exists.
  destruct (List.filter _ row) as [|kv' l] eqn:E; [|reflexivity].
  assert (H : In kv (List.filter
                       (fun kv => negb (str_mem (fst kv) headers)) row))
    by (apply filter_In; auto).
  rewrite E in H. destruct H.
Qed.

(** Without a fault, [writerows] writes the rows in front of the first one
    that has a key outside the field names, and raises there. *)
Lemma writerows_extra_key (name : string) (headers : list string)
    (bad : dict) (rest : list dict) :
  forall (good : list dict) (cs : list (list json)) (w : world)
         (c : list line),
    disk w !! name = Some c ->
    for_each (dict_to_list headers) good = Return cs ->
    has_extra_key headers bad = true ->
    writerows name headers (good ++ bad :: rest) (None, w)
    = (raise ValueError "dict contains fields not in fieldnames",
       (None, with_file w name (c ++ map Row cs))).
Proof.
  induction good as [|row good IH]; intros cs w c Hc Hcs Hbad.
  - injection Hcs as <-. cbn [app writerows map].
    unfold bind at 1, lift at 1.
    rewrite (dict_to_list_extra_key _ _ Hbad). unfold raise.
    now rewrite app_nil_r, (with_file_same _ _ _ Hc).
  - cbn [for_each] in Hcs.
    apply obind_Return in Hcs as (cells & Hrow & Hcs).
    apply obind_Return in Hcs as (cs' & Hcs' & [= <-]).
    cbn [app writerows]. unfold bind at 1, lift at 1. rewrite Hrow.
    unfold bind at 1.
    rewrite (write_line_through name (Row cells) None w c I)
      by (unfold content; now rewrite Hc).
    cbn [after_line].
    rewrite (IH cs' _ _ (disk_with_file w name (c ++ [Row cells])) Hcs' Hbad).
    rewrite with_file_with_file, <- app_assoc. reflexivity.
Qed.

Lemma save_to_csv_try_extra_key (good rest : list dict) (bad : dict)
    (cs : list (list json)) (name : string) (headers : list string)
    (w : world) :
  for_each (dict_to_list headers) good = Return cs ->
  has_extra_key headers bad = true ->
  save_to_csv_try (bool_decide (is_Some (disk w !! name)))
    (good ++ bad :: rest) name headers (None, w)
  = (raise ValueError "dict contains fields not in fieldnames",
     (None, with_file w name
              (content w name ++ appended headers (content w name) cs))).
Proof.
  intros Hcs Hbad.
  unfold save_to_csv_try. unfold bind at 1.
  rewrite (open_append_through name None w) by discriminate.
  unfold bind at 1. rewrite (file_op_through None _ I).
  unfold bind at 1. rewrite getsize_with_file.
  rewrite header_condition. unfold bind at 1.
  destruct (content w name) as [|l0 old].
  - unfold writeheader.
    rewrite (write_line_through name (Header headers) None _ [] I)
      by apply content_with_file.
    rewrite with_file_with_file. cbn [after_line app]. unfold bind at 1.
    rewrite (writerows_extra_key name headers bad rest good cs _ _
               (disk_with_file w name [Header headers]) Hcs Hbad).
    now rewrite with_file_with_file.
  - unfold ret at 1. unfold bind at 1.
    rewrite (writerows_extra_key name headers bad rest good cs _ _
               (disk_with_file w name (l0 :: old)) Hcs Hbad).
    rewrite with_file_with_file. unfold appended. reflexivity.
Qed.

(** X14: a batch is not written as a whole.  When, without a file fault, a
    row has a key that is not among the headers, the rows before it have
    reached the file (under the header, on a file without lines), the row
    itself and the rows after it have not; the [ValueError] of the writer is
    caught, the call returns, and its one log record is the error of the
    second handler, not the success message. *)
Theorem save_to_csv_extra_key (good rest : list dict) (bad : dict)
    (cs : list (list json)) (filename : string) (headers : list string)
    (w : world) :
  faults w = [] ->
  for_each (dict_to_list headers) good = Return cs ->
  has_extra_key headers bad = true ->
  exists w' m,
    save_to_csv (good ++ bad :: rest) filename headers w = (Return tt, w') /\
    content w' filename
    = content w filename ++ appended headers (content w filename) cs /\
    log w'
    = log w ++ [{| levelname := ERROR;
                   message :=
                     "An unexpected error occurred during CSV writing: "
                     +:+ m |}].
Proof.
  intros Hfaults Hcs Hbad.
  unfold save_to_csv. unfold bind at 1. unfold next_fault. rewrite Hfaults.
  unfold save_to_csv_under, call. unfold bind at 1.
  unfold in_world at 1, os_path_isfile. cbn [fst snd]. unfold try_except.
  rewrite (save_to_csv_try_extra_key good rest bad cs filename headers w
             Hcs Hbad).
  unfold raise. known_exns. cbv iota.
  unfold in_world, logging. cbn [fst snd exn_msg].
  eexists _, _. split; [reflexivity|]. split; [|reflexivity].
  unfold content at 1. cbn [disk]. now rewrite disk_with_file.
Qed.

(** ** The whole run: what it does to the world *)

(** X15: however the run ends (it completes, an exception leaves it, or
    the scripted network runs out), and whatever the domains, the network
    and the faults, the program has only appended to the CSV file: the
    lines it held are still in front, every other file is as it was;
    requests and log records were only added, and outcomes only taken from
    the front of the network. *)
Theorem main_grows (lib : stdlib) (STORE_DOMAINS : list string) (w : world) :
  grows CSV_FILENAME w (snd (main lib STORE_DOMAINS w)).
Proof.
  apply (main_keeps lib (grows CSV_FILENAME)).
  - apply reads_only_grows.
  - intros data. eapply keeps_impl; [apply appends_only_grows|].
    apply save_to_csv_appends_only.
Qed.


Lemma host_char_domain_safe (domain : string) :
  str_forall host_char domain = true -> domain_safe domain = true.
Proof.
  apply str_forall_impl.
  intros c [[Ha Hc']%andb_prop _]%andb_prop. rewrite Ha. cbn [andb].
  apply negb_true_iff in Hc'. apply negb_true_iff.
  cbn in *. repeat (apply orb_false_elim in Hc' as [? Hc']).
  repeat (apply orb_false_intro; auto).
Qed.

Lemma rows_of_some_row (store_domain : string) (p : json)
    (ps : list json) :
  concat (map (rows_of store_domain) (p :: ps)) <> [].
Proof.
  destruct (rows_of_shape store_domain p) as (_ & Hlen & _).
  cbn [map concat]. destruct (rows_of store_domain p); cbn in *; [lia|].
  discriminate.
Qed.

(** X17: the four steps compose.  For one store given by a bare host name,
    whose first page is a successful page of fewer than 250 products (at
    least one) of the documented shape, on a CSV file that is missing or
    empty and without file faults, the program completes; it has requested
    page 1 of [https://HOST/products.json] and nothing else; and the file
    holds the header followed, product by product in the order of the
    page, by one line per variant (one line for a product without
    variants), each line with the values of its row in the order of the
    header. *)
Theorem main_single_store (lib : stdlib) (domain : string) (w : world)
    (o : get_outcome) (rest : list get_outcome) (ps : list json) :
  str_truthy domain = true ->
  str_forall host_char domain = true ->
  network w = o :: rest ->
  page_products o = Some ps ->
  ps <> [] ->
  length ps < 250 ->
  forallb product_shape ps = true ->
  faults w = [] ->
  content w CSV_FILENAME = [] ->
  exists w',
    main lib [domain] w = (Return tt, w') /\
    network w' = rest /\
    requested w' = requested w ++ [paginated (endpoint domain) 1] /\
    content w' CSV_FILENAME
    = Header CSV_HEADERS
      :: map Row (map (map snd) (concat (map (rows_of domain) ps))).
Proof.
  intros Hne Hhost Hnet Ho Hps Hlen Hshape Hfaults Hempty.
  (* the work on the domain *)
  assert (Hdomain : forall w0,
    network w0 = o :: rest -> faults w0 = [] ->
    content w0 CSV_FILENAME = [] -> requested w0 = requested w ->
    exists w1,
      process_domain lib domain w0 = (Return tt, w1) /\
      network w1 = rest /\
      requested w1 = requested w ++ [paginated (endpoint domain) 1] /\
      content w1 CSV_FILENAME
      = Header CSV_HEADERS
        :: map Row (map (map snd) (concat (map (rows_of domain) ps)))).
  { clear Hnet Hfaults Hempty. intros w0 Hnet Hfaults Hempty Hreq.
    unfold process_domain. unfold bind at 1. unfold logging at 1.
    set (w1 := {| network := network w0; faults := faults w0;
                  disk := disk w0; requested := requested w0;
                  log := _ |}).
    unfold bind at 1.
    destruct (construct_url_safe lib domain w1 (host_char_domain_safe _ Hhost))
      as (r & w2 & E & (Hn2 & Hf2 & Hd2 & Hr2) & _).
    pose proof (construct_url_bare_host lib domain w1 Hne Hhost) as Hurl.
    unfold url_of in Hurl. rewrite E in Hurl. cbn [fst] in Hurl.
    injection Hurl as ->. rewrite E.
    replace (negb (str_truthy (endpoint domain))) with false by reflexivity.
    unfold bind at 1.
    destruct (fetch_products_stops all_info (endpoint domain) w2 [] [] o rest
                ps)
      as (recs1 & recs2 & E3 & _).
    { rewrite Hn2. exact Hnet. }
    { constructor. }
    { intros l w' Hw'. exact (fetch_page_last _ l w' o rest ps Hw' Ho Hlen). }
    cbn [concat app length] in E3. rewrite E3.
    destruct ps as [|p ps']; [congruence|].
    unfold bind at 1. unfold logging at 1.
    set (w3 := {| network := _; faults := _; disk := _; requested := _;
                  log := _ |}).
    unfold bind at 1. unfold lift at 1.
    destruct (flatten_data_emits (p :: ps') domain Hshape) as [Eflat _].
    rewrite Eflat.
    pose proof (rows_of_some_row domain p ps') as Hrows.
    destruct (concat (map (rows_of domain) (p :: ps'))) as [|row rows] eqn:Ec;
      [congruence|].
    rewrite <- Ec in Eflat.
    destruct (save_to_csv_appends CSV_FILENAME CSV_HEADERS (row :: rows) w3
                (map (map snd) (row :: rows)))
      as (w4 & E4 & Hc4).
    { cbn. now rewrite Hf2. }
    { rewrite <- Ec. exact (flatten_data_cells _ _ _ Eflat). }
    destruct (save_to_csv_appends_only (row :: rows) CSV_FILENAME CSV_HEADERS
                w3)
      as (_ & _ & _ & Hr4 & Hn4 & _).
    rewrite E4 in Hr4, Hn4. cbn [snd] in Hr4, Hn4.
    exists w4. split; [exact E4|]. split; [exact Hn4|].
    split.
    - rewrite Hr4. cbn. now rewrite Hr2, <- Hreq.
    - rewrite Hc4.
      assert (Hc3 : content w3 CSV_FILENAME = []).
      { unfold content in *. cbn. now rewrite Hd2. }
      rewrite Hc3. reflexivity. }
  unfold main. unfold bind at 1. unfold os_path_isfile at 1.
  unfold bind at 1.
  assert (H0 : exists w0,
    (if bool_decide (is_Some (disk w !! CSV_FILENAME))
     then logging WARNING
            (CSV_FILENAME +:+ " exists. Appending data. "
             +:+ "Delete the file manually for a fresh start.")
     else ret tt) w = (Return tt, w0) /\
    network w0 = network w /\ faults w0 = faults w /\
    disk w0 = disk w /\ requested w0 = requested w).
  { destruct (bool_decide _); eexists; (split; [reflexivity|]); cbn; auto. }
  destruct H0 as (w0 & E0 & Hn0 & Hf0 & Hd0 & Hr0). rewrite E0.
  unfold bind at 1. cbn [for_domains]. unfold bind at 1.
  destruct (Hdomain w0) as (w1 & E1 & Hn1 & Hr1 & Hc1);
    [congruence | congruence | unfold content in *; now rewrite Hd0
    | exact Hr0 |].
  rewrite E1. unfold ret at 1. unfold logging.
  eexists. split; [reflexivity|]. cbn. auto.
Qed.

(** ** The further properties at concrete inputs *)

Lemma construct_url_host_only_witness :
  url_of lib0 "shop.example.com/collections/all?page=2#top" (world_of [])
  = Return (Some "https://shop.example.com/products.json").
Proof.
  apply (construct_url_host_only lib0
           "shop.example.com/collections/all?page=2#top" (world_of [])).
  - reflexivity.
  - discriminate.
Defined.

Lemma construct_url_bracket_witness :
  construct_url lib0 "[::1" (world_of [])
  = (raise ValueError "Invalid IPv6 URL", world_of []).
Proof.
  apply (construct_url_bracket lib0 "[::1" (world_of [])).
  vm_compute. discriminate.
Defined.

Lemma fetch_products_escapes_witness :
  fst (fetch_products example_url (world_of [interrupted; shirt_page]))
  = Raise (mk_exn KeyboardInterrupt "") /\
  (isinstance (mk_exn KeyboardInterrupt "") Exception = false \/
   exn_cls (mk_exn KeyboardInterrupt "") = UnboundLocalError).
Proof.
  split; [reflexivity|].
  apply (fetch_products_escapes example_url
           (world_of [interrupted; shirt_page])).
  reflexivity.
Defined.

Lemma fetch_products_unbound_response_witness :
  fetch_products example_url
    (world_of [GetRaises (mk_exn JSONDecodeError "Expecting value");
               shirt_page])
  = (raise UnboundLocalError "cannot access local variable 'response'",
     advance
       (world_of [GetRaises (mk_exn JSONDecodeError "Expecting value");
                  shirt_page])
       [shirt_page] [paginated example_url 1]
       [ {| levelname := INFO;
            message := "Fetching: " +:+ paginated example_url 1 |};
         {| levelname := ERROR;
            message := "Error decoding JSON from "
                       +:+ paginated example_url 1
                       +:+ ": " +:+ "Expecting value" |} ]).
Proof.
  apply (fetch_products_unbound_response example_url
           (world_of [GetRaises (mk_exn JSONDecodeError "Expecting value");
                      shirt_page])
           (mk_exn JSONDecodeError "Expecting value") [shirt_page]);
    reflexivity.
Defined.

Lemma fetch_products_not_an_object_witness :
  not_an_object (ok_response (JList [JStr "products"])) = true /\
  exists recs,
    fetch_products example_url
      (world_of [page_of 250; ok_response (JList [JStr "products"]);
                 shirt_page])
    = (Return (concat [repeat plain_product 250]),
       advance
         (world_of [page_of 250; ok_response (JList [JStr "products"]);
                    shirt_page])
         [shirt_page] (pages_requested example_url 2) recs).
Proof.
  split; [reflexivity|].
  apply (fetch_products_not_an_object example_url
           (world_of [page_of 250; ok_response (JList [JStr "products"]);
                      shirt_page])
           [page_of 250] [repeat plain_product 250]
           (ok_response (JList [JStr "products"])) [shirt_page]).
  - reflexivity.
  - constructor; [split; reflexivity | constructor].
  - reflexivity.
Defined.

Lemma fetch_products_decode_error_witness :
  fetch_products example_url (world_of [GetReturns undecodable; shirt_page])
  = (Return [],
     advance (world_of [GetReturns undecodable; shirt_page])
       [shirt_page] [paginated example_url 1]
       [ {| levelname := INFO;
            message := "Fetching: " +:+ paginated example_url 1 |};
         {| levelname := ERROR;
            message := "Error fetching " +:+ paginated example_url 1 +:+ ": "
                       +:+ exn_msg decode_error |} ]).
Proof.
  apply (fetch_products_decode_error example_url
           (world_of [GetReturns undecodable; shirt_page])
           undecodable [shirt_page] decode_error);
    reflexivity.
Defined.

Lemma flatten_data_some_row_witness :
  flatten_data [shirt; plain_product] "example.com"
  = Return [shirt_row 10 "20.00"; shirt_row 11 "25.00";
            row_of "example.com" plain_product None] /\
  length [shirt; plain_product]
  <= length [shirt_row 10 "20.00"; shirt_row 11 "25.00";
             row_of "example.com" plain_product None].
Proof.
  split; [reflexivity|].
  apply (flatten_data_some_row [shirt; plain_product] "example.com").
  reflexivity.
Defined.

Lemma flatten_data_not_a_dict_witness :
  flatten_data ([shirt] ++ JStr "gift" :: [plain_product]) "example.com"
  = raise AttributeError "object has no attribute 'get'".
Proof.
  apply (flatten_data_not_a_dict [shirt] [plain_product] (JStr "gift")
           "example.com" [shirt_row 10 "20.00"; shirt_row 11 "25.00"]);
    reflexivity.
Defined.

Lemma flatten_data_null_list_witness :
  (exists m,
     flatten_data [JDict null_images; shirt] "example.com"
     = raise TypeError m) /\
  flatten_data [JDict null_variants; plain_product] "example.com"
  = Return [row_of "example.com" (JDict null_variants) None;
            row_of "example.com" plain_product None].
Proof.
  split.
  - apply (proj1 (flatten_data_null_list null_images [shirt] "example.com")).
    left. reflexivity.
  - apply (proj2 (flatten_data_null_list null_variants [plain_product]
                    "example.com")); reflexivity.
Defined.

Lemma save_to_csv_extra_key_witness :
  has_extra_key CSV_HEADERS odd_row = true /\
  exists w' m,
    save_to_csv ([shirt_row 10 "20.00"] ++ odd_row :: [shirt_row 11 "25.00"])
      CSV_FILENAME CSV_HEADERS (world_of []) = (Return tt, w') /\
    content w' CSV_FILENAME
    = content (world_of []) CSV_FILENAME
      ++ appended CSV_HEADERS (content (world_of []) CSV_FILENAME)
           [map snd (shirt_row 10 "20.00")] /\
    log w'
    = log (world_of [])
      ++ [{| levelname := ERROR;
             message :=
               "An unexpected error occurred during CSV writing: " +:+ m |}].
Proof.
  split; [reflexivity|].
  apply (save_to_csv_extra_key [shirt_row 10 "20.00"] [shirt_row 11 "25.00"]
           odd_row [map snd (shirt_row 10 "20.00")]
           CSV_FILENAME CSV_HEADERS (world_of [])); reflexivity.
Defined.


Lemma main_single_store_witness :
  exists w',
    main lib0 ["example.com"] (world_of [shirt_page; timed_out])
    = (Return tt, w') /\
    network w' = [timed_out] /\
    requested w'
    = requested (world_of [shirt_page; timed_out])
      ++ [paginated (endpoint "example.com") 1] /\
    content w' CSV_FILENAME
    = Header CSV_HEADERS
      :: map Row (map (map snd)
                    (concat (map (rows_of "example.com") [shirt]))).
Proof.
  apply (main_single_store lib0 "example.com"
           (world_of [shirt_page; timed_out]) shirt_page [timed_out] [shirt]);
    try reflexivity.
  - discriminate.
  - cbn. lia.
Defined.
